(** * PIC24 I2C master driver: state machine, transaction buffer, admission

    A shallow embedding of [src/i2cDriver.c] and [src/i2cDriver.h].

    The driver's globals and the peripheral's special function registers
    form one machine state; every C function is a function on that state.
    The foreground API returns its [int] result next to the new state.

    Integer widths are those of the PIC24 tool chain the source is
    written for: [unsigned char] has 8 bits, [size_t] and
    [unsigned int] have 16 bits, and arithmetic in them wraps. *)

From Stdlib Require Import ZArith Bool Lia.
From stdpp Require Import base list.

Local Open Scope Z_scope.

(** ** Enumerations of [i2cDriver.h] *)

Inductive i2c_states : Set :=
| I2C_STATE_idle
| I2C_STATE_sendingStart
| I2C_STATE_dataTX
| I2C_STATE_sendingRestart
| I2C_STATE_sendingStop
| I2C_STATE_dataRX
| I2C_STATE_ack
| I2C_STATE_error
| I2C_STATE_disabled.

Inductive i2c_errors : Set :=
| I2C_ERR_noError
| I2C_ERR_internal
| I2C_ERR_inErrorState
| I2C_ERR_busy
| I2C_ERR_TXBufferOverflow
| I2C_ERR_RXBufferOverflow
| I2C_ERR_slaveNACK
| I2C_ERR_nothingReceived
| I2C_ERR_collisionDetected
| I2C_ERR_disabled.

Definition state_eqb (a b : i2c_states) : bool :=
  match a, b with
  | I2C_STATE_idle, I2C_STATE_idle
  | I2C_STATE_sendingStart, I2C_STATE_sendingStart
  | I2C_STATE_dataTX, I2C_STATE_dataTX
  | I2C_STATE_sendingRestart, I2C_STATE_sendingRestart
  | I2C_STATE_sendingStop, I2C_STATE_sendingStop
  | I2C_STATE_dataRX, I2C_STATE_dataRX
  | I2C_STATE_ack, I2C_STATE_ack
  | I2C_STATE_error, I2C_STATE_error
  | I2C_STATE_disabled, I2C_STATE_disabled => true
  | _, _ => false
  end.

(** The numeric value of an error code, as the header assigns it. *)
Definition error_code (e : i2c_errors) : Z :=
  match e with
  | I2C_ERR_noError => 0
  | I2C_ERR_internal => 1
  | I2C_ERR_inErrorState => 2
  | I2C_ERR_busy => 3
  | I2C_ERR_TXBufferOverflow => 4
  | I2C_ERR_RXBufferOverflow => 5
  | I2C_ERR_slaveNACK => 6
  | I2C_ERR_nothingReceived => 7
  | I2C_ERR_collisionDetected => 8
  | I2C_ERR_disabled => 9
  end.

(** [if ( i2c_error )]: the C truth value of an error code. *)
Definition error_set (e : i2c_errors) : bool := negb (error_code e =? 0).

(** ** Integer types *)

Definition I2C_TRX_BUFFER_SIZE : Z := 32.

(** Conversion to a 16-bit unsigned type: [size_t] and [unsigned int]. *)
Definition u16 (z : Z) : Z := z mod 65536.

(** Conversion to [unsigned char]. *)
Definition uchar (z : Z) : Z := z mod 256.

(** ** The bus as the peripheral sees it

    Every command the driver gives the peripheral (a control bit set in
    I2CxCON, a byte written to I2CxTRN) is appended to a log, oldest
    first. *)

Inductive bus_op : Set :=
| Start            (* I2CCONbits.SEN = true *)
| RepeatedStart          (* I2CCONbits.RSEN = true *)
| Stop             (* I2CCONbits.PEN = true *)
| Ack              (* I2CCONbits.ACKEN = true *)
| Receive          (* I2CCONbits.RCEN = true *)
| Transmit (b : Z) (* I2CTRN = b *).

(** Special function registers the driver reads or writes. *)
Record sfr : Type := mk_sfr {
  I2CBRG : Z;
  I2CEN : bool;
  DISSLW : bool;
  ACKDT : bool;
  BCL : bool;
  ACKSTAT : bool;
  I2CRCV : Z;
  MI2CIE : bool;
  MI2CIP : Z;
  MI2CIF : bool;
  bus : list bus_op
}.

(** The driver's globals, the registers, and one ghost flag:
    [out_of_bounds] is raised by an access outside [TRXBuffer]. C leaves
    the behaviour undefined from there on; the model goes on assigning
    the named variables as the statements say and keeps the flag. *)
Record driver : Type := mk_driver {
  i2c_state : i2c_states;
  i2c_error : i2c_errors;
  i2c_stayInErrorState : bool;
  TRXBuffer : list Z;
  TRXBufferCurrPos : Z;
  TRXBufferLen : Z;
  numRXBytes : Z;
  out_of_bounds : bool;
  regs : sfr
}.

(** *** Field updates *)

Definition set_regs (r : sfr) (s : driver) : driver :=
  mk_driver (i2c_state s) (i2c_error s) (i2c_stayInErrorState s)
    (TRXBuffer s) (TRXBufferCurrPos s) (TRXBufferLen s) (numRXBytes s)
    (out_of_bounds s) r.

Definition set_i2c_state (v : i2c_states) (s : driver) : driver :=
  mk_driver v (i2c_error s) (i2c_stayInErrorState s)
    (TRXBuffer s) (TRXBufferCurrPos s) (TRXBufferLen s) (numRXBytes s)
    (out_of_bounds s) (regs s).

Definition set_i2c_error (v : i2c_errors) (s : driver) : driver :=
  mk_driver (i2c_state s) v (i2c_stayInErrorState s)
    (TRXBuffer s) (TRXBufferCurrPos s) (TRXBufferLen s) (numRXBytes s)
    (out_of_bounds s) (regs s).

Definition set_i2c_stayInErrorState (v : bool) (s : driver) : driver :=
  mk_driver (i2c_state s) (i2c_error s) v
    (TRXBuffer s) (TRXBufferCurrPos s) (TRXBufferLen s) (numRXBytes s)
    (out_of_bounds s) (regs s).

Definition set_TRXBuffer (v : list Z) (s : driver) : driver :=
  mk_driver (i2c_state s) (i2c_error s) (i2c_stayInErrorState s)
    v (TRXBufferCurrPos s) (TRXBufferLen s) (numRXBytes s)
    (out_of_bounds s) (regs s).

Definition set_TRXBufferCurrPos (v : Z) (s : driver) : driver :=
  mk_driver (i2c_state s) (i2c_error s) (i2c_stayInErrorState s)
    (TRXBuffer s) v (TRXBufferLen s) (numRXBytes s)
    (out_of_bounds s) (regs s).

Definition set_TRXBufferLen (v : Z) (s : driver) : driver :=
  mk_driver (i2c_state s) (i2c_error s) (i2c_stayInErrorState s)
    (TRXBuffer s) (TRXBufferCurrPos s) v (numRXBytes s)
    (out_of_bounds s) (regs s).

Definition set_numRXBytes (v : Z) (s : driver) : driver :=
  mk_driver (i2c_state s) (i2c_error s) (i2c_stayInErrorState s)
    (TRXBuffer s) (TRXBufferCurrPos s) (TRXBufferLen s) v
    (out_of_bounds s) (regs s).

Definition raise_out_of_bounds (s : driver) : driver :=
  mk_driver (i2c_state s) (i2c_error s) (i2c_stayInErrorState s)
    (TRXBuffer s) (TRXBufferCurrPos s) (TRXBufferLen s) (numRXBytes s)
    true (regs s).

Definition set_I2CBRG (v : Z) (r : sfr) : sfr :=
  mk_sfr v (I2CEN r) (DISSLW r) (ACKDT r) (BCL r) (ACKSTAT r) (I2CRCV r)
    (MI2CIE r) (MI2CIP r) (MI2CIF r) (bus r).

Definition set_I2CEN (v : bool) (r : sfr) : sfr :=
  mk_sfr (I2CBRG r) v (DISSLW r) (ACKDT r) (BCL r) (ACKSTAT r) (I2CRCV r)
    (MI2CIE r) (MI2CIP r) (MI2CIF r) (bus r).

Definition set_DISSLW (v : bool) (r : sfr) : sfr :=
  mk_sfr (I2CBRG r) (I2CEN r) v (ACKDT r) (BCL r) (ACKSTAT r) (I2CRCV r)
    (MI2CIE r) (MI2CIP r) (MI2CIF r) (bus r).

Definition set_ACKDT (v : bool) (r : sfr) : sfr :=
  mk_sfr (I2CBRG r) (I2CEN r) (DISSLW r) v (BCL r) (ACKSTAT r) (I2CRCV r)
    (MI2CIE r) (MI2CIP r) (MI2CIF r) (bus r).

Definition set_BCL (v : bool) (r : sfr) : sfr :=
  mk_sfr (I2CBRG r) (I2CEN r) (DISSLW r) (ACKDT r) v (ACKSTAT r) (I2CRCV r)
    (MI2CIE r) (MI2CIP r) (MI2CIF r) (bus r).

Definition set_MI2CIE (v : bool) (r : sfr) : sfr :=
  mk_sfr (I2CBRG r) (I2CEN r) (DISSLW r) (ACKDT r) (BCL r) (ACKSTAT r)
    (I2CRCV r) v (MI2CIP r) (MI2CIF r) (bus r).

Definition set_MI2CIP (v : Z) (r : sfr) : sfr :=
  mk_sfr (I2CBRG r) (I2CEN r) (DISSLW r) (ACKDT r) (BCL r) (ACKSTAT r)
    (I2CRCV r) (MI2CIE r) v (MI2CIF r) (bus r).

Definition set_MI2CIF (v : bool) (r : sfr) : sfr :=
  mk_sfr (I2CBRG r) (I2CEN r) (DISSLW r) (ACKDT r) (BCL r) (ACKSTAT r)
    (I2CRCV r) (MI2CIE r) (MI2CIP r) v (bus r).

Definition emit (op : bus_op) (r : sfr) : sfr :=
  mk_sfr (I2CBRG r) (I2CEN r) (DISSLW r) (ACKDT r) (BCL r) (ACKSTAT r)
    (I2CRCV r) (MI2CIE r) (MI2CIP r) (MI2CIF r) (bus r ++ [op]).

(** *** Accesses to [TRXBuffer] *)

Definition in_buffer (i : Z) : bool :=
  (0 <=? i) && (i <? I2C_TRX_BUFFER_SIZE).

(** [TRXBuffer[ i ] = v] *)
Definition buf_store (i v : Z) (s : driver) : driver :=
  if in_buffer i
  then set_TRXBuffer (<[Z.to_nat i := v]> (TRXBuffer s)) s
  else raise_out_of_bounds s.

(** The value of [TRXBuffer[ i ]]. *)
Definition buf_at (i : Z) (s : driver) : Z :=
  default 0 (TRXBuffer s !! Z.to_nat i).

(** Reading [TRXBuffer[ i ]]: the value, and the flag when [i] is outside. *)
Definition buf_load (i : Z) (s : driver) : Z * driver :=
  (buf_at i s, if in_buffer i then s else raise_out_of_bounds s).

(** ** Macros of [i2cDriver.c] *)

(** [waitUntilIdle()] spins while one of ACKEN, RCEN, PEN, RSEN, SEN is
    set. The peripheral clears each of them itself when the command has
    gone out, so the loop ends without touching driver state. *)
Definition waitUntilIdle (s : driver) : driver := s.

Definition command (op : bus_op) (s : driver) : driver :=
  set_regs (emit op (regs s)) s.

Definition i2c_write (data : Z) (s : driver) : driver :=
  command (Transmit data) (waitUntilIdle s).

Definition sendStartCondition (s : driver) : driver :=
  set_i2c_state I2C_STATE_sendingStart (command Start (waitUntilIdle s)).

Definition sendReStartCondition (s : driver) : driver :=
  set_i2c_state I2C_STATE_sendingRestart
    (command RepeatedStart (waitUntilIdle s)).

Definition sendStopCondition (s : driver) : driver :=
  set_i2c_state I2C_STATE_sendingStop (command Stop (waitUntilIdle s)).

Definition sendAck (s : driver) : driver :=
  set_i2c_state I2C_STATE_ack (command Ack (waitUntilIdle s)).

Definition stopDueToError (error : i2c_errors) (s : driver) : driver :=
  let s := set_i2c_error error s in
  if i2c_stayInErrorState s
  then set_i2c_state I2C_STATE_error s
  else sendStopCondition s.

Definition resetI2CInterruptFlag (s : driver) : driver :=
  set_regs (set_MI2CIF false (regs s)) s.

Definition enableI2CInterrupt (s : driver) : driver :=
  set_regs (set_MI2CIE true (regs s)) s.

Definition disableI2CInterrupt (s : driver) : driver :=
  set_regs (set_MI2CIE false (regs s)) s.

Definition setI2CInterruptPriority (pri : Z) (s : driver) : driver :=
  set_regs (set_MI2CIP pri (regs s)) s.

Definition getI2CInterruptPriority (s : driver) : Z := MI2CIP (regs s).

(** ** Driver control *)

Definition i2c_reset (s : driver) : driver :=
  let s := set_i2c_state I2C_STATE_idle s in
  let s := set_i2c_error I2C_ERR_noError s in
  set_regs (set_BCL false (regs s)) s.

Definition i2c_busy (s : driver) : bool :=
  negb (state_eqb (i2c_state s) I2C_STATE_idle)
  && negb (state_eqb (i2c_state s) I2C_STATE_error).

Definition i2c_init (brg : Z) (enableSlewRateControl : bool) (priority : Z)
    (s : driver) : driver :=
  let s := set_regs (set_I2CBRG (u16 brg) (regs s)) s in
  let s := set_regs (set_I2CEN false (regs s)) s in
  let s := set_regs (set_DISSLW (negb enableSlewRateControl) (regs s)) s in
  let s := resetI2CInterruptFlag s in
  let s := enableI2CInterrupt s in
  let s := setI2CInterruptPriority
             (if (0 <=? priority) && (priority <=? 7) then priority else 1) s in
  let s := set_regs (set_ACKDT false (regs s)) s in
  let s := set_regs (set_I2CEN true (regs s)) s in
  (* int dummy = I2CRCV; the value read is dropped *)
  i2c_reset s.

Definition i2c_disable (s : driver) : driver :=
  let s := disableI2CInterrupt s in
  let s := set_regs (set_I2CEN false (regs s)) s in
  set_i2c_state I2C_STATE_disabled s.

Definition i2c_enable (s : driver) : driver :=
  i2c_init (I2CBRG (regs s)) (negb (DISSLW (regs s)))
    (getI2CInterruptPriority s) s.

(** ** Admission

    The three guards every request starts with. [None] lets the request
    through; [Some (e, s')] is the early [return]. *)
Definition admission_guard (s : driver) : option (i2c_errors * driver) :=
  if error_set (i2c_error s) then
    Some (I2C_ERR_inErrorState, s)
  else if state_eqb (i2c_state s) I2C_STATE_disabled then
    Some (I2C_ERR_disabled, set_i2c_error I2C_ERR_disabled s)
  else if negb (state_eqb (i2c_state s) I2C_STATE_idle) then
    Some (I2C_ERR_busy, set_i2c_error I2C_ERR_busy s)
  else None.

(** [( address << 1 ) & 0xfe] *)
Definition address_byte (address : Z) : Z :=
  Z.land (Z.shiftl address 1) 254.

Definition i2c_putc (address reg data : Z) (s : driver)
    : i2c_errors * driver :=
  match admission_guard s with
  | Some r => r
  | None =>
      let s := set_i2c_state I2C_STATE_error s in
      if I2C_TRX_BUFFER_SIZE <? 3 then
        (I2C_ERR_TXBufferOverflow, set_i2c_error I2C_ERR_TXBufferOverflow s)
      else
        let s := set_TRXBufferLen 3 s in
        let s := set_TRXBufferCurrPos 0 s in
        let s := buf_store 0 (address_byte address) s in
        let s := buf_store 1 reg s in
        let s := buf_store 2 data s in
        let s := set_numRXBytes 0 s in
        (I2C_ERR_noError, sendStartCondition s)
  end.

(** The caller's memory from [data] on is a list of bytes; a read behind
    its end yields 0. *)
Definition data_at (data : list Z) (i : Z) : Z :=
  default 0 (data !! Z.to_nat i).

(** [strlen] of the caller's bytes: how many come before the first 0. *)
Fixpoint strlen (data : list Z) : Z :=
  match data with
  | [] => 0
  | c :: rest => if c =? 0 then 0 else 1 + strlen rest
  end.

(** [for ( i = 0; i < len; ++i ) TRXBuffer[ i + 2 ] = data[ i ];]
    with [n] iterations left and the loop variable at [i]. *)
Fixpoint puts_copy (n : nat) (i : Z) (data : list Z) (s : driver) : driver :=
  match n with
  | O => s
  | S n' =>
      puts_copy n' (i + 1) data
        (buf_store (u16 (i + 2)) (data_at data i) s)
  end.

Definition i2c_puts (address reg : Z) (data : list Z) (len : Z) (s : driver)
    : i2c_errors * driver :=
  match admission_guard s with
  | Some r => r
  | None =>
      let s := set_i2c_state I2C_STATE_error s in
      if I2C_TRX_BUFFER_SIZE <? u16 (2 + len) then
        (I2C_ERR_TXBufferOverflow, set_i2c_error I2C_ERR_TXBufferOverflow s)
      else
        let len := if len =? 0 then u16 (strlen data) else len in
        let s := set_TRXBufferLen (u16 (2 + len)) s in
        let s := set_TRXBufferCurrPos 0 s in
        let s := buf_store 0 (address_byte address) s in
        let s := buf_store 1 reg s in
        let s := puts_copy (Z.to_nat len) 0 data s in
        let s := set_numRXBytes 0 s in
        (I2C_ERR_noError, sendStartCondition s)
  end.

Definition i2c_getc (address reg : Z) (s : driver) : i2c_errors * driver :=
  match admission_guard s with
  | Some r => r
  | None =>
      let s := set_i2c_state I2C_STATE_error s in
      if I2C_TRX_BUFFER_SIZE <? 2 then
        (I2C_ERR_TXBufferOverflow, set_i2c_error I2C_ERR_TXBufferOverflow s)
      else
        let s := set_TRXBufferLen 2 s in
        let s := set_TRXBufferCurrPos 0 s in
        let s := buf_store 0 (address_byte address) s in
        let s := buf_store 1 reg s in
        let s := set_numRXBytes 1 s in
        (I2C_ERR_noError, sendStartCondition s)
  end.

Definition i2c_gets (address reg : Z) (len : Z) (s : driver)
    : i2c_errors * driver :=
  match admission_guard s with
  | Some r => r
  | None =>
      let s := set_i2c_state I2C_STATE_error s in
      if I2C_TRX_BUFFER_SIZE <? 2 then
        (I2C_ERR_TXBufferOverflow, set_i2c_error I2C_ERR_TXBufferOverflow s)
      else if I2C_TRX_BUFFER_SIZE <? u16 (1 + len) then
        (I2C_ERR_RXBufferOverflow, set_i2c_error I2C_ERR_RXBufferOverflow s)
      else
        let s := set_TRXBufferLen 2 s in
        let s := set_TRXBufferCurrPos 0 s in
        let s := buf_store 0 (address_byte address) s in
        let s := buf_store 1 reg s in
        let s := set_numRXBytes len s in
        (I2C_ERR_noError, sendStartCondition s)
  end.

(** ** Result retrieval *)

(** [for ( i = 0; i < len; ++i ) data[ i ] = TRXBuffer[ i ];]
    with [n] iterations left and the loop variable at [i]. The bytes
    stored to [data[ i ]], [data[ i + 1 ]], ... are returned in order. *)
Fixpoint getData_copy (n : nat) (i : Z) (s : driver) : list Z * driver :=
  match n with
  | O => ([], s)
  | S n' =>
      let '(b, s) := buf_load i s in
      let '(rest, s) := getData_copy n' (i + 1) s in
      (b :: rest, s)
  end.

(** The result is the returned code, the bytes written to the caller's
    [data] array from index 0 on, and the new state. *)
Definition i2c_getData (len : Z) (s : driver)
    : i2c_errors * list Z * driver :=
  match admission_guard s with
  | Some (e, s) => (e, [], s)
  | None =>
      if TRXBufferCurrPos s =? 0 then
        (I2C_ERR_nothingReceived, [],
         set_i2c_error I2C_ERR_nothingReceived s)
      else if len <? TRXBufferCurrPos s then
        (I2C_ERR_RXBufferOverflow, [],
         set_i2c_error I2C_ERR_RXBufferOverflow s)
      else
        let '(written, s) := getData_copy (Z.to_nat len) 0 s in
        (I2C_ERR_noError, written, s)
  end.

(** ** The interrupt routine *)

(** [I2CCONbits.RCEN = true] after [waitUntilIdle()]. *)
Definition armReceive (s : driver) : driver :=
  command Receive (waitUntilIdle s).

(** [TRXBuffer[ TRXBufferCurrPos++ ]] as an operand: the byte and the
    state with the cursor advanced. *)
Definition next_tx_byte (s : driver) : Z * driver :=
  let '(b, s) := buf_load (TRXBufferCurrPos s) s in
  (b, set_TRXBufferCurrPos (u16 (TRXBufferCurrPos s + 1)) s).

Definition I2CInterruptRoutine (s : driver) : driver :=
  if BCL (regs s) then
    let s := set_i2c_state I2C_STATE_error s in
    let s := set_i2c_error I2C_ERR_collisionDetected s in
    resetI2CInterruptFlag s
  else
    resetI2CInterruptFlag
      match i2c_state s with
      | I2C_STATE_idle =>
          let s := set_i2c_error I2C_ERR_internal s in
          set_i2c_state I2C_STATE_error s
      | I2C_STATE_sendingStart
      | I2C_STATE_sendingRestart =>
          if TRXBufferCurrPos s =? TRXBufferLen s then
            stopDueToError I2C_ERR_internal s
          else
            let s := set_i2c_state I2C_STATE_dataTX s in
            let '(b, s) := next_tx_byte s in
            i2c_write b s
      | I2C_STATE_dataTX =>
          if ACKSTAT (regs s) then
            stopDueToError I2C_ERR_slaveNACK s
          else if TRXBufferCurrPos s =? TRXBufferLen s then
            if negb (numRXBytes s =? 0) then
              if negb (Z.land (buf_at 0 s) 1 =? 0) then
                let s := set_TRXBufferCurrPos 0 s in
                let s := set_i2c_state I2C_STATE_dataRX s in
                armReceive s
              else
                let s := set_TRXBufferCurrPos 0 s in
                let s := buf_store 0 (Z.lor (buf_at 0 s) 1) s in
                let s := set_TRXBufferLen 1 s in
                sendReStartCondition s
            else
              sendStopCondition s
          else
            let '(b, s) := next_tx_byte s in
            i2c_write b s
      | I2C_STATE_sendingStop =>
          set_i2c_state I2C_STATE_idle s
      | I2C_STATE_dataRX =>
          let s := buf_store (TRXBufferCurrPos s) (uchar (I2CRCV (regs s))) s in
          let s := set_TRXBufferCurrPos (u16 (TRXBufferCurrPos s + 1)) s in
          if TRXBufferCurrPos s =? numRXBytes s then
            sendStopCondition s
          else
            sendAck s
      | I2C_STATE_ack =>
          let s := set_i2c_state I2C_STATE_dataRX s in
          armReceive s
      | I2C_STATE_error
      | I2C_STATE_disabled => s
      end.

(** ** Driving the machine *)

(** What the peripheral shows when it raises the master interrupt: the
    collision bit, the acknowledge status of the byte just sent, and the
    receive register. *)
Record completion : Type := mk_completion {
  ev_BCL : bool;
  ev_ACKSTAT : bool;
  ev_I2CRCV : Z
}.

Definition raise_interrupt (ev : completion) (s : driver) : driver :=
  let r := regs s in
  set_regs
    (mk_sfr (I2CBRG r) (I2CEN r) (DISSLW r) (ACKDT r)
       (ev_BCL ev) (ev_ACKSTAT ev) (ev_I2CRCV ev)
       (MI2CIE r) (MI2CIP r) true (bus r)) s.

Definition on_completion (ev : completion) (s : driver) : driver :=
  I2CInterruptRoutine (raise_interrupt ev s).

(** The bus went well: no collision, the slave acknowledged. *)
Definition acked : completion := mk_completion false false 0.

(** The bus went well and the receive register holds [b]. *)
Definition received (b : Z) : completion := mk_completion false false b.

(** Calls of the foreground API that return an error code. *)
Inductive request : Type :=
| Putc (address reg data : Z)
| Puts (address reg : Z) (data : list Z) (len : Z)
| Getc (address reg : Z)
| Gets (address reg len : Z)
| GetData (len : Z).

Definition call (q : request) (s : driver) : i2c_errors * driver :=
  match q with
  | Putc a r d => i2c_putc a r d s
  | Puts a r data len => i2c_puts a r data len s
  | Getc a r => i2c_getc a r s
  | Gets a r len => i2c_gets a r len s
  | GetData len => let '(e, _, s) := i2c_getData len s in (e, s)
  end.

Definition is_admission (q : request) : bool :=
  match q with
  | GetData _ => false
  | _ => true
  end.

(** Everything that can happen to the driver. *)
Inductive op : Type :=
| Call (q : request)
| Completion (ev : completion)
| DoReset
| DoDisable
| DoEnable
| DoInit (brg : Z) (enableSlewRateControl : bool) (priority : Z)
| SetStayInErrorState (b : bool).

Definition step (o : op) (s : driver) : driver :=
  match o with
  | Call q => snd (call q s)
  | Completion ev => on_completion ev s
  | DoReset => i2c_reset s
  | DoDisable => i2c_disable s
  | DoEnable => i2c_enable s
  | DoInit brg slew pri => i2c_init brg slew pri s
  | SetStayInErrorState b => set_i2c_stayInErrorState b s
  end.

Definition run (ops : list op) (s : driver) : driver :=
  fold_left (fun s o => step o s) ops s.

(** The state at power-up: statics are zero, [i2c_stayInErrorState] is
    initialised to [true]; then [i2c_init( brg, slew, pri )]. *)
Definition power_up : driver :=
  mk_driver I2C_STATE_idle I2C_ERR_noError true
    (replicate 32 0) 0 0 0 false
    (mk_sfr 0 false false false false false 0 false 0 false []).

Definition initial (brg : Z) (slew : bool) (pri : Z) : driver :=
  i2c_init brg slew pri power_up.

(** ** Predicates on driver states *)

(** A driver whose buffer is the 32-byte array of the source and which
    has not left it. *)
Definition well_formed (s : driver) : Prop :=
  length (TRXBuffer s) = 32%nat /\ out_of_bounds s = false.

Definition is_byte (b : Z) : Prop := 0 <= b < 256.

(** Transaction in progress: every state but idle, error and disabled. *)
Definition active (s : driver) : bool :=
  match i2c_state s with
  | I2C_STATE_idle | I2C_STATE_error | I2C_STATE_disabled => false
  | _ => true
  end.

(** What the interrupt routine reads of the driver and what it leaves
    behind: the driver's variables and the bus log. The status registers
    come with each event and are not part of it. *)
Definition view (s : driver)
    : i2c_states * i2c_errors * bool * list Z * Z * Z * Z * bool
      * list bus_op :=
  (i2c_state s, i2c_error s, i2c_stayInErrorState s, TRXBuffer s,
   TRXBufferCurrPos s, TRXBufferLen s, numRXBytes s, out_of_bounds s,
   bus (regs s)).

(** The operations that clear [i2c_error]: [i2c_reset] itself, and
    [i2c_init] and [i2c_enable], which end in a call to it. *)
Definition calls_reset (o : op) : bool :=
  match o with
  | DoReset | DoEnable | DoInit _ _ _ => true
  | _ => false
  end.

(** The buffer invariant in the words of the specification:
    [0 <= cursor <= length <= C]. *)
Definition cursor_length_capacity (s : driver) : Prop :=
  0 <= TRXBufferCurrPos s <= TRXBufferLen s
  /\ TRXBufferLen s <= I2C_TRX_BUFFER_SIZE.

(** The buffer invariant as the code keeps it. The buffer is never left.
    While bytes go out (start, transmit, restart) the cursor is bounded
    by the length and the length by the capacity. While bytes come in the
    length is not consulted: the cursor is bounded by the pending read
    count, which admission keeps below the capacity. *)
Definition buffer_inv (s : driver) : Prop :=
  length (TRXBuffer s) = 32%nat
  /\ out_of_bounds s = false
  /\ match i2c_state s with
     | I2C_STATE_sendingStart | I2C_STATE_sendingRestart | I2C_STATE_dataTX =>
         0 <= TRXBufferCurrPos s <= TRXBufferLen s
         /\ TRXBufferLen s <= I2C_TRX_BUFFER_SIZE
         /\ 0 <= numRXBytes s <= I2C_TRX_BUFFER_SIZE - 1
     | I2C_STATE_dataRX | I2C_STATE_ack =>
         0 <= TRXBufferCurrPos s < numRXBytes s
         /\ numRXBytes s <= I2C_TRX_BUFFER_SIZE - 1
         /\ 0 <= TRXBufferLen s <= I2C_TRX_BUFFER_SIZE
     | I2C_STATE_sendingStop =>
         0 <= TRXBufferCurrPos s <= I2C_TRX_BUFFER_SIZE
         /\ 0 <= TRXBufferLen s <= I2C_TRX_BUFFER_SIZE
     | I2C_STATE_idle | I2C_STATE_error | I2C_STATE_disabled => True
     end.

(** The payload length [i2c_puts] works with: [len], or the string's
    length when [len] is 0. *)
Definition payload_length (data : list Z) (len : Z) : Z :=
  if len =? 0 then strlen data else len.

(** Requests within the reach of the capacity checks: a length whose sum
    with 2 (or 1) fits [size_t], for [i2c_puts] with [len] 0 a string
    that fits the buffer, and for [i2c_getData] a destination no larger
    than the buffer. *)
Definition sized (o : op) : Prop :=
  match o with
  | Call (Puts _ _ data len) =>
      0 <= len <= 65533 /\ (len = 0 -> strlen data <= 30)
  | Call (Gets _ _ len) => 0 <= len <= 65534
  | Call (GetData len) => len <= 32
  | _ => True
  end.

(** ** Event scripts *)

(** A completion event with the collision bit set. *)
Definition collision : completion := mk_completion true false 0.

(** The five completion events of a register read before the first byte
    arrives: start, address, register, restart, read address. *)
Definition addressing : list op := replicate 5 (Completion acked).

(** The completion events of the receive phase when the slave sends
    [rx]: each byte arrives with one event, and between two bytes the
    acknowledge completes with another. *)
Fixpoint rx_events (rx : list Z) : list op :=
  match rx with
  | [] => []
  | b :: rest =>
      Completion (received b)
      :: match rest with
         | [] => []
         | _ :: _ => Completion acked :: rx_events rest
         end
  end.

(** The bus commands of the receive phase after the first [Receive]. *)
Definition rx_commands (count : nat) : list bus_op :=
  concat (replicate (count - 1) [Ack; Receive]) ++ [Stop].

(** The bus commands of a register read of [count] bytes. *)
Definition read_commands (address reg : Z) (count : nat) : list bus_op :=
  [Start; Transmit (address_byte address); Transmit reg; RepeatedStart;
   Transmit (Z.lor (address_byte address) 1); Receive]
  ++ rx_commands count.

(** ** Scenarios

    Device address 80 (0x50), register 16 (0x10); the driver initialised
    with [i2c_init( 157, true, 4 )]. *)

(** A register read of two bytes, two completion events in: the address
    and the register byte have gone out and the third event is due. *)
Definition before_pivot : driver :=
  raise_interrupt acked
    (run [Call (Gets 80 16 2); Completion acked; Completion acked]
       (initial 157 true 4)).

(** A single-byte write with two of its three bytes sent. *)
Definition write_in_flight : driver :=
  run [Call (Putc 80 16 7); Completion acked; Completion acked]
    (initial 157 true 4).

(** A read of two bytes with the first byte, 171, in the buffer. *)
Definition read_in_flight : driver :=
  run (Call (Gets 80 16 2) :: addressing ++ [Completion (received 171)])
    (initial 157 true 4).

(** A single-byte write at its very end: the stop condition is on the
    bus and its completion event is still to come. *)
Definition stop_pending : driver :=
  run [Call (Putc 80 16 7); Completion acked; Completion acked;
       Completion acked; Completion acked]
    (initial 157 true 4).

(** A single-byte read carried through: the slave answered 171 and the
    stop condition has completed. *)
Definition byte_read_done : driver :=
  run [Call (Getc 80 16); Completion acked; Completion acked;
       Completion acked; Completion acked; Completion acked;
       Completion (received 171); Completion acked]
    (initial 157 true 4).

(** The driver with the auto-drain policy: [i2c_stayInErrorState] false. *)
Definition auto_drain : driver :=
  set_i2c_stayInErrorState false (initial 157 true 4).

(** A string of 31 characters and its terminator. *)
Definition long_string : list Z := replicate 31 65 ++ [0].

(** ** Vocabulary of the further properties *)

(** Everything of a driver but the buffer contents and the ghost flag. *)
Definition control (s : driver)
    : i2c_states * i2c_errors * bool * Z * Z * Z * sfr :=
  (i2c_state s, i2c_error s, i2c_stayInErrorState s, TRXBufferCurrPos s,
   TRXBufferLen s, numRXBytes s, regs s).

(** The settings [i2c_init] programs: baud rate, slew rate, priority. *)
Definition settings (s : driver) : Z * bool * Z :=
  (I2CBRG (regs s), DISSLW (regs s), MI2CIP (regs s)).

(** Operations other than [i2c_init]. *)
Definition not_init (o : op) : bool :=
  match o with
  | DoInit _ _ _ => false
  | _ => true
  end.

(** [count] completion events that all went well. *)
Definition acks (count : nat) : list op := replicate count (Completion acked).

(** The bus commands of a write of [payload] to register [reg]. *)
Definition write_commands (address reg : Z) (payload : list Z)
    : list bus_op :=
  [Start] ++ map Transmit (address_byte address :: reg :: payload) ++ [Stop].

(** A slave that does not acknowledge. *)
Definition nack : completion := mk_completion false true 0.

(** The events on which the interrupt routine gives the bus no command:
    a collision, and any event in the idle, stop, error or disabled
    state. *)
Definition quiet (s : driver) : bool :=
  BCL (regs s)
  || match i2c_state s with
     | I2C_STATE_idle | I2C_STATE_sendingStop
     | I2C_STATE_error | I2C_STATE_disabled => true
     | _ => false
     end.

(** The bytes a request puts into the buffer: address byte, register,
    payload. *)
Definition outgoing (q : request) : list Z :=
  match q with
  | Putc a r d => [address_byte a; r; d]
  | Puts a r data len => address_byte a :: r :: take (Z.to_nat len) data
  | Getc a r => [address_byte a; r]
  | Gets a r _ => [address_byte a; r]
  | GetData _ => []
  end.

(** The number of bytes a request asks the slave for. *)
Definition pending (q : request) : Z :=
  match q with
  | Getc _ _ => 1
  | Gets _ _ len => len
  | _ => 0
  end.

(** Admission calls that fit the buffer: a payload of 1 to 30 bytes that
    the caller's array holds, a read count of at most 31. *)
Definition proper (q : request) : Prop :=
  match q with
  | Putc _ _ _ | Getc _ _ => True
  | Puts _ _ data len =>
      1 <= len <= 30 /\ (Z.to_nat len <= length data)%nat
  | Gets _ _ len => 0 <= len <= 31
  | GetData _ => False
  end.

(** ** Proof automation *)

(** Splits a conjunction of closed facts and evaluates each. *)
Ltac evaluate :=
  cbv zeta;
  repeat match goal with |- _ /\ _ => split end;
  vm_compute; first [reflexivity | discriminate].

(** Reduces record accesses and leaves integer arithmetic and buffer
    accesses standing. *)
Ltac crunch :=
  cbn -[u16 uchar in_buffer Z.of_nat Z.add Z.eqb Z.land Z.lor Z.to_nat
        lookup insert].

(** Takes a driver apart along a [view] equation and unfolds one
    completion event on it. *)
Ltac open_view s H :=
  destruct s as [? ? ? ? ? ? ? ? [? ? ? ? ? ? ? ? ? ? ?]];
  unfold view in H; cbn in H; injection H as -> -> -> -> -> -> -> -> ->;
  unfold view, on_completion, raise_interrupt, I2CInterruptRoutine;
  crunch.

(** Closes an instance of [buffer_inv] on an explicit driver. *)
Ltac close_inv :=
  unfold buffer_inv, I2C_TRX_BUFFER_SIZE in *; crunch;
  rewrite ?length_insert;
  repeat match goal with |- _ /\ _ => split end;
  first [assumption | reflexivity | lia | exact I].

(** * Properties *)

(** ** Basic facts *)

Lemma state_eqb_eq (a b : i2c_states) : state_eqb a b = true <-> a = b.
Proof. destruct a, b; simpl; split; intros H; congruence. Qed.

Lemma state_eqb_neq (a b : i2c_states) : state_eqb a b = false <-> a <> b.
Proof. destruct a, b; simpl; split; intros H; congruence. Qed.

Lemma error_set_noError (e : i2c_errors) :
  error_set e = false <-> e = I2C_ERR_noError.
Proof. destruct e; cbv; split; intros H; congruence. Qed.

Lemma error_set_true (e : i2c_errors) :
  error_set e = true <-> e <> I2C_ERR_noError.
Proof. destruct e; cbv; split; intros H; congruence. Qed.

(** The four ways through the admission guards. *)
Lemma guard_faulted (s : driver) :
  error_set (i2c_error s) = true ->
  admission_guard s = Some (I2C_ERR_inErrorState, s).
Proof. intros H. unfold admission_guard. now rewrite H. Qed.

Lemma guard_disabled (s : driver) :
  i2c_error s = I2C_ERR_noError ->
  i2c_state s = I2C_STATE_disabled ->
  admission_guard s
  = Some (I2C_ERR_disabled, set_i2c_error I2C_ERR_disabled s).
Proof. intros He Hs. unfold admission_guard. now rewrite He, Hs. Qed.

Lemma guard_busy (s : driver) :
  i2c_error s = I2C_ERR_noError ->
  i2c_state s <> I2C_STATE_disabled ->
  i2c_state s <> I2C_STATE_idle ->
  admission_guard s = Some (I2C_ERR_busy, set_i2c_error I2C_ERR_busy s).
Proof.
  intros He Hd Hi. unfold admission_guard. rewrite He. simpl.
  destruct (i2c_state s) eqn:E; simpl; congruence.
Qed.

Lemma guard_idle (s : driver) :
  i2c_error s = I2C_ERR_noError ->
  i2c_state s = I2C_STATE_idle ->
  admission_guard s = None.
Proof. intros He Hs. unfold admission_guard. now rewrite He, Hs. Qed.

(** Whatever the guards reject, the driver state other than [i2c_error]
    stays as it was. *)
Lemma guard_rejects (s : driver) (e : i2c_errors) (s' : driver) :
  admission_guard s = Some (e, s') ->
  (e = I2C_ERR_inErrorState /\ s' = s) \/
  ((e = I2C_ERR_disabled \/ e = I2C_ERR_busy) /\ s' = set_i2c_error e s
   /\ i2c_error s = I2C_ERR_noError).
Proof.
  unfold admission_guard.
  destruct (error_set (i2c_error s)) eqn:He.
  - intros [= <- <-]. now left.
  - apply error_set_noError in He.
    destruct (state_eqb (i2c_state s) I2C_STATE_disabled).
    + intros [= <- <-]. right. auto.
    + destruct (negb (state_eqb (i2c_state s) I2C_STATE_idle));
        [intros [= <- <-]; right; auto | discriminate].
Qed.

(** Every admission call starts with the guards. *)
Lemma call_guarded (q : request) (s : driver) (r : i2c_errors * driver) :
  admission_guard s = Some r -> call q s = r.
Proof.
  intros H. destruct q; simpl;
    unfold i2c_putc, i2c_puts, i2c_getc, i2c_gets, i2c_getData;
    rewrite H; try reflexivity.
  now destruct r.
Qed.

(** ** Busy query *)

(** C10: [i2c_busy] answers true exactly when the state is neither idle
    nor the error state; a driver latched in the error state therefore
    reports not busy. *)
Theorem i2c_busy_iff (s : driver) :
  (i2c_busy s = true <->
   i2c_state s <> I2C_STATE_idle /\ i2c_state s <> I2C_STATE_error)
  /\ (i2c_state s = I2C_STATE_error -> i2c_busy s = false).
Proof.
  unfold i2c_busy. split.
  - destruct (i2c_state s); simpl; split;
      first [ discriminate | intros [? ?]; congruence
            | intros _; split; discriminate | reflexivity ].
  - intros ->. reflexivity.
Qed.

Lemma i2c_busy_iff_witness :
  i2c_busy (set_i2c_error I2C_ERR_slaveNACK
              (set_i2c_state I2C_STATE_error power_up)) = false.
Proof.
  apply (proj2 (i2c_busy_iff
                  (set_i2c_error I2C_ERR_slaveNACK
                     (set_i2c_state I2C_STATE_error power_up)))).
  reflexivity.
Defined.

(** ** The interrupt routine, case by case *)

Lemma land_1_testbit (b : Z) : Z.land b 1 = 0 <-> Z.testbit b 0 = false.
Proof.
  rewrite Z.bit0_odd, <- Z.negb_even, negb_false_iff, Z.even_spec.
  change 1 with (Z.ones 1). rewrite Z.land_ones by lia.
  change (2 ^ 1) with 2. split.
  - intros H. apply Z.mod_divide in H; [|lia]. destruct H as [k ->].
    exists k. lia.
  - intros [k ->]. rewrite Z.mul_comm. apply Z.mod_mul. lia.
Qed.

Lemma lor_1_testbit (b : Z) (n : Z) :
  0 <= n ->
  Z.testbit (Z.lor b 1) n = if n =? 0 then true else Z.testbit b n.
Proof.
  intros Hn. rewrite Z.lor_spec.
  destruct (n =? 0) eqn:E.
  - apply Z.eqb_eq in E. subst n. simpl. apply orb_true_r.
  - apply Z.eqb_neq in E.
    replace (Z.testbit 1 n) with false; [apply orb_false_r|].
    symmetry. change 1 with (2 ^ 0). rewrite Z.pow2_bits_eqb by lia.
    apply Z.eqb_neq. lia.
Qed.

(** C8: in every state, the error and the disabled state included, a
    completion event with the collision bit set puts the driver into the
    error state with [I2C_ERR_collisionDetected] and does nothing else:
    the buffer, the cursor, the length, the pending read count and the
    bus log are as before; only the interrupt flag is cleared. *)
Theorem collision_preempts (s : driver) :
  BCL (regs s) = true ->
  let s' := I2CInterruptRoutine s in
  i2c_state s' = I2C_STATE_error
  /\ i2c_error s' = I2C_ERR_collisionDetected
  /\ TRXBuffer s' = TRXBuffer s
  /\ TRXBufferCurrPos s' = TRXBufferCurrPos s
  /\ TRXBufferLen s' = TRXBufferLen s
  /\ numRXBytes s' = numRXBytes s
  /\ i2c_stayInErrorState s' = i2c_stayInErrorState s
  /\ out_of_bounds s' = out_of_bounds s
  /\ bus (regs s') = bus (regs s)
  /\ s' = resetI2CInterruptFlag
            (set_i2c_error I2C_ERR_collisionDetected
               (set_i2c_state I2C_STATE_error s)).
Proof.
  intros H. unfold I2CInterruptRoutine. rewrite H. simpl.
  repeat split; reflexivity.
Qed.

Lemma collision_preempts_witness :
  i2c_state
    (I2CInterruptRoutine
       (raise_interrupt (mk_completion true false 0)
          (set_i2c_state I2C_STATE_disabled power_up)))
  = I2C_STATE_error.
Proof.
  apply (collision_preempts
           (raise_interrupt (mk_completion true false 0)
              (set_i2c_state I2C_STATE_disabled power_up))).
  reflexivity.
Defined.

(** C7: a completion event in the data-transmit state, without
    collision and with the last byte acknowledged, at the end of the
    outgoing bytes ([TRXBufferCurrPos == TRXBufferLen]), with bytes to
    read pending and the direction bit of byte 0 still 0: the cursor goes
    back to 0, bit 0 of byte 0 is set and nothing else in the buffer
    changes, the length becomes 1, a restart condition is the one command
    given to the bus, and the state is sending-restart. *)
Theorem write_to_read_pivot (s : driver) :
  well_formed s ->
  BCL (regs s) = false ->
  ACKSTAT (regs s) = false ->
  i2c_state s = I2C_STATE_dataTX ->
  TRXBufferCurrPos s = TRXBufferLen s ->
  0 < numRXBytes s ->
  Z.testbit (buf_at 0 s) 0 = false ->
  let s' := I2CInterruptRoutine s in
  TRXBufferCurrPos s' = 0
  /\ buf_at 0 s' = Z.lor (buf_at 0 s) 1
  /\ Z.testbit (buf_at 0 s') 0 = true
  /\ (forall n, 0 < n -> Z.testbit (buf_at 0 s') n = Z.testbit (buf_at 0 s) n)
  /\ (forall i, 0 < i -> buf_at i s' = buf_at i s)
  /\ TRXBufferLen s' = 1
  /\ bus (regs s') = bus (regs s) ++ [RepeatedStart]
  /\ i2c_state s' = I2C_STATE_sendingRestart
  /\ i2c_error s' = i2c_error s
  /\ numRXBytes s' = numRXBytes s
  /\ out_of_bounds s' = false.
Proof.
  intros [Hlen Hoob] Hbcl Hack Hst Hcur Hrx Hdir.
  apply land_1_testbit in Hdir.
  unfold I2CInterruptRoutine.
  rewrite Hbcl, Hst, Hack, Hcur, Z.eqb_refl.
  replace (numRXBytes s =? 0) with false by (symmetry; apply Z.eqb_neq; lia).
  rewrite Hdir. cbn -[Z.testbit Z.lor buf_at].
  assert (H0 : forall i v r,
             buf_at i (set_regs r (set_i2c_state v
               (set_regs (emit RepeatedStart (regs s)) (set_TRXBufferLen 1
                 (buf_store 0 (Z.lor (buf_at 0 s) 1)
                    (set_TRXBufferCurrPos 0 s))))))
             = default 0 (<[0%nat := Z.lor (buf_at 0 s) 1]> (TRXBuffer s)
                            !! Z.to_nat i)) by reflexivity.
  repeat split; try assumption; try reflexivity.
  - unfold resetI2CInterruptFlag, sendReStartCondition, command, waitUntilIdle.
    cbn -[Z.testbit Z.lor buf_at buf_store]. rewrite H0.
    simpl Z.to_nat. now rewrite list_lookup_insert_eq by lia.
  - unfold resetI2CInterruptFlag, sendReStartCondition, command, waitUntilIdle.
    cbn -[Z.testbit Z.lor buf_at buf_store]. rewrite H0.
    simpl Z.to_nat. rewrite list_lookup_insert_eq by lia.
    cbn -[Z.testbit Z.lor buf_at]. now rewrite lor_1_testbit by lia.
  - intros n Hn.
    unfold resetI2CInterruptFlag, sendReStartCondition, command, waitUntilIdle.
    cbn -[Z.testbit Z.lor buf_at buf_store]. rewrite H0.
    simpl Z.to_nat. rewrite list_lookup_insert_eq by lia.
    cbn -[Z.testbit Z.lor buf_at]. rewrite lor_1_testbit by lia.
    destruct (n =? 0) eqn:E; [apply Z.eqb_eq in E; lia | reflexivity].
  - intros i Hi.
    unfold resetI2CInterruptFlag, sendReStartCondition, command, waitUntilIdle.
    cbn -[Z.testbit Z.lor buf_at buf_store]. rewrite H0.
    rewrite list_lookup_insert_ne by lia. reflexivity.
Qed.

Lemma write_to_read_pivot_witness :
  TRXBufferCurrPos (I2CInterruptRoutine before_pivot) = 0.
Proof.
  refine (proj1 (write_to_read_pivot before_pivot _ _ _ _ _ _ _));
    [split | ..]; reflexivity.
Defined.

(** ** Admission while busy *)

(** C5: an admission call made while the state is neither idle nor
    disabled and no error is latched returns [I2C_ERR_busy]; the buffer
    contents, the cursor, the length and the state are as before. (The
    call also records [I2C_ERR_busy] in [i2c_error] and changes nothing
    else.) *)
Theorem busy_admission_frame (q : request) (s : driver) :
  is_admission q = true ->
  i2c_state s <> I2C_STATE_idle ->
  i2c_state s <> I2C_STATE_disabled ->
  i2c_error s = I2C_ERR_noError ->
  fst (call q s) = I2C_ERR_busy
  /\ TRXBuffer (snd (call q s)) = TRXBuffer s
  /\ TRXBufferCurrPos (snd (call q s)) = TRXBufferCurrPos s
  /\ TRXBufferLen (snd (call q s)) = TRXBufferLen s
  /\ i2c_state (snd (call q s)) = i2c_state s
  /\ snd (call q s) = set_i2c_error I2C_ERR_busy s.
Proof.
  intros _ Hidle Hdis Herr.
  rewrite (call_guarded q s _ (guard_busy s Herr Hdis Hidle)).
  simpl. repeat split; reflexivity.
Qed.

Lemma busy_admission_frame_witness :
  fst (call (Putc 80 16 7) before_pivot) = I2C_ERR_busy.
Proof.
  refine (proj1 (busy_admission_frame (Putc 80 16 7) before_pivot _ _ _ _));
    first [reflexivity | discriminate].
Defined.

(** ** The latched error *)

Lemma stopDueToError_error (e : i2c_errors) (s : driver) :
  i2c_error (stopDueToError e s) = e.
Proof.
  unfold stopDueToError. simpl.
  now destruct (i2c_stayInErrorState s).
Qed.

(** The interrupt routine never clears a latched error: it leaves
    [i2c_error] alone or stores a non-zero code. *)
Lemma isr_keeps_error (s : driver) :
  error_set (i2c_error s) = true ->
  error_set (i2c_error (I2CInterruptRoutine s)) = true.
Proof.
  intros H. unfold I2CInterruptRoutine.
  destruct (BCL (regs s)); [reflexivity|].
  destruct (i2c_state s); simpl; try assumption; try reflexivity.
  - destruct (_ =? _); [now rewrite stopDueToError_error|].
    unfold next_tx_byte, buf_load.
    now destruct (in_buffer _).
  - destruct (ACKSTAT _); [now rewrite stopDueToError_error|].
    destruct (_ =? _).
    + destruct (negb (numRXBytes s =? 0)); [|assumption].
      destruct (negb (_ =? 0)); assumption.
    + unfold next_tx_byte, buf_load. now destruct (in_buffer _).
  - destruct (_ =? _); [now rewrite stopDueToError_error|].
    unfold next_tx_byte, buf_load.
    now destruct (in_buffer _).
  - unfold buf_store. destruct (in_buffer _); simpl;
      destruct (_ =? _); assumption.
Qed.

Lemma step_keeps_error (o : op) (s : driver) :
  calls_reset o = false ->
  error_set (i2c_error s) = true ->
  error_set (i2c_error (step o s)) = true.
Proof.
  intros Ho H. destruct o; try discriminate; simpl.
  - rewrite (call_guarded q s _ (guard_faulted s H)). exact H.
  - apply isr_keeps_error. exact H.
  - exact H.
  - exact H.
Qed.

Lemma run_keeps_error (ops : list op) (s : driver) :
  Forall (fun o => calls_reset o = false) ops ->
  error_set (i2c_error s) = true ->
  error_set (i2c_error (run ops s)) = true.
Proof.
  intros Hops. revert s.
  induction Hops as [|o ops Ho _ IH]; intros s H; [exact H|].
  simpl. apply IH. now apply step_keeps_error.
Qed.

(** C9: an admission call rejected with busy or disabled stores that code
    in [i2c_error]. From then on, whatever happens to the driver short of
    a reset (completion events that finish the transfer in flight
    included), every admission call and every [i2c_getData] call returns
    [I2C_ERR_inErrorState]. *)
Theorem rejection_latches (q : request) (s : driver) :
  is_admission q = true ->
  fst (call q s) = I2C_ERR_busy \/ fst (call q s) = I2C_ERR_disabled ->
  i2c_error (snd (call q s)) = fst (call q s)
  /\ forall (ops : list op) (q' : request),
       Forall (fun o => calls_reset o = false) ops ->
       fst (call q' (run ops (snd (call q s)))) = I2C_ERR_inErrorState.
Proof.
  intros Hq Hrej.
  assert (Hlatched : i2c_error (snd (call q s)) = fst (call q s)).
  { destruct (admission_guard s) as [[e s']|] eqn:G.
    - rewrite (call_guarded q s _ G) in *. simpl in *.
      destruct (guard_rejects s e s' G) as [[-> _]|(_ & -> & _)];
        [destruct Hrej; discriminate | reflexivity].
    - exfalso. destruct q; try discriminate; simpl in Hrej;
        unfold i2c_putc, i2c_puts, i2c_getc, i2c_gets in Hrej;
        rewrite G in Hrej; simpl in Hrej.
      + destruct Hrej; discriminate.
      + destruct (_ <? _) in Hrej; simpl in Hrej; destruct Hrej; discriminate.
      + destruct Hrej; discriminate.
      + destruct (_ <? _) in Hrej; simpl in Hrej; destruct Hrej; discriminate. }
  split; [exact Hlatched|].
  intros ops q' Hops.
  assert (Hset : error_set (i2c_error (snd (call q s))) = true).
  { rewrite Hlatched. destruct Hrej as [-> | ->]; reflexivity. }
  pose proof (run_keeps_error ops _ Hops Hset) as Hrun.
  now rewrite (call_guarded q' _ _ (guard_faulted _ Hrun)).
Qed.

Lemma rejection_latches_witness :
  fst (call (Getc 80 16)
         (run [Completion acked] (snd (call (Putc 80 17 9) stop_pending))))
  = I2C_ERR_inErrorState.
Proof.
  refine (proj2 (rejection_latches (Putc 80 17 9) stop_pending _ _)
            [Completion acked] (Getc 80 16) _).
  - reflexivity.
  - left. reflexivity.
  - repeat constructor.
Defined.

(** The transfer in that scenario does finish: the driver is idle again,
    with the busy code still latched. *)
Example rejected_while_stopping :
  let s := run [Completion acked] (snd (call (Putc 80 17 9) stop_pending)) in
  i2c_state s = I2C_STATE_idle /\ i2c_error s = I2C_ERR_busy.
Proof. split; reflexivity. Qed.

(** ** Disabling and enabling *)

(** C3, as the specification has it, fails: with a write in flight,
    disable and enable leave the cursor at 2, and [i2c_getData] then
    succeeds and hands out the address and register bytes of the aborted
    transfer; with a read in flight it hands out the byte received before
    the abort. *)
Lemma disable_enable_residual_data :
  (let s' := i2c_enable (i2c_disable write_in_flight) in
   i2c_busy write_in_flight = true
   /\ i2c_busy s' = false
   /\ i2c_getData 2 s' = (I2C_ERR_noError, [160; 16], s')
   /\ fst (fst (i2c_getData 2 s')) <> I2C_ERR_nothingReceived)
  /\ (let s' := i2c_enable (i2c_disable read_in_flight) in
      i2c_busy read_in_flight = true
      /\ i2c_busy s' = false
      /\ i2c_getData 1 s' = (I2C_ERR_noError, [171], s')
      /\ fst (fst (i2c_getData 1 s')) <> I2C_ERR_nothingReceived).
Proof. evaluate. Qed.

(** C3, amended: after [i2c_disable] and [i2c_enable] the driver is idle
    with no error, so [i2c_busy] is false; buffer and cursor are those of
    the aborted transfer, and a following [i2c_getData] returns
    [I2C_ERR_nothingReceived] exactly when that cursor is 0. *)
Theorem disable_enable_retrieval (s : driver) :
  let s' := i2c_enable (i2c_disable s) in
  i2c_busy s' = false
  /\ i2c_state s' = I2C_STATE_idle
  /\ i2c_error s' = I2C_ERR_noError
  /\ TRXBuffer s' = TRXBuffer s
  /\ TRXBufferCurrPos s' = TRXBufferCurrPos s
  /\ forall len,
       fst (fst (i2c_getData len s')) = I2C_ERR_nothingReceived
       <-> TRXBufferCurrPos s = 0.
Proof.
  cbv zeta. repeat (split; [reflexivity|]).
  intros len. unfold i2c_getData.
  rewrite guard_idle by reflexivity.
  change (TRXBufferCurrPos (i2c_enable (i2c_disable s)))
    with (TRXBufferCurrPos s).
  destruct (TRXBufferCurrPos s =? 0) eqn:E0.
  - split; [intros _; now apply Z.eqb_eq | reflexivity].
  - apply Z.eqb_neq in E0. split; [|intros; contradiction].
    destruct (len <? TRXBufferCurrPos s); [discriminate|].
    destruct (getData_copy _ _ _). discriminate.
Qed.

(** ** Result retrieval *)

Lemma in_buffer_true (i : Z) : 0 <= i < 32 -> in_buffer i = true.
Proof.
  intros H. unfold in_buffer, I2C_TRX_BUFFER_SIZE.
  apply andb_true_iff. split; [apply Z.leb_le | apply Z.ltb_lt]; lia.
Qed.

(** Inside the buffer the copy loop of [i2c_getData] hands out the
    buffer's bytes from [i] on and leaves the driver as it is. *)
Lemma getData_copy_in_bounds (n : nat) (i : Z) (s : driver) :
  length (TRXBuffer s) = 32%nat ->
  0 <= i -> i + Z.of_nat n <= 32 ->
  getData_copy n i s = (take n (drop (Z.to_nat i) (TRXBuffer s)), s).
Proof.
  revert i. induction n as [|n IH]; intros i Hlen Hi Hn; [reflexivity|].
  cbn [getData_copy]. unfold buf_load.
  rewrite in_buffer_true by lia.
  rewrite IH by lia.
  destruct (lookup_lt_is_Some_2 (TRXBuffer s) (Z.to_nat i)) as [b Hb]; [lia|].
  unfold buf_at. rewrite Hb. simpl.
  rewrite (drop_S _ _ _ Hb). simpl.
  replace (Z.to_nat (i + 1)) with (S (Z.to_nat i)) by lia.
  reflexivity.
Qed.

(** What a successful [i2c_getData] does when the caller's length stays
    within the buffer: it copies the first [len] bytes of the buffer,
    whatever the cursor, and changes nothing. *)
Lemma getData_copies_len (len : Z) (s : driver) :
  length (TRXBuffer s) = 32%nat ->
  i2c_state s = I2C_STATE_idle ->
  i2c_error s = I2C_ERR_noError ->
  0 < TRXBufferCurrPos s <= len -> len <= 32 ->
  i2c_getData len s
  = (I2C_ERR_noError, take (Z.to_nat len) (TRXBuffer s), s).
Proof.
  intros Hlen Hst Herr Hcur Hle. unfold i2c_getData.
  rewrite guard_idle by assumption.
  replace (TRXBufferCurrPos s =? 0) with false
    by (symmetry; apply Z.eqb_neq; lia).
  replace (len <? TRXBufferCurrPos s) with false
    by (symmetry; apply Z.ltb_ge; lia).
  rewrite getData_copy_in_bounds by (try assumption; lia).
  reflexivity.
Qed.

(** C2 on the code: one byte has been received (the cursor is 1) and the
    caller offers room for four. [i2c_getData] stores four bytes into the
    caller's array, the received one followed by stale buffer contents
    (the register byte 16 of the request); the loop runs to [len], not to
    [TRXBufferCurrPos]. With [len] beyond 32 the loop reads past the end
    of [TRXBuffer]. *)
Lemma getData_runs_to_len :
  i2c_state byte_read_done = I2C_STATE_idle
  /\ i2c_error byte_read_done = I2C_ERR_noError
  /\ TRXBufferCurrPos byte_read_done = 1
  /\ i2c_getData 4 byte_read_done
     = (I2C_ERR_noError, [171; 16; 0; 0], byte_read_done)
  /\ fst (fst (i2c_getData 33 byte_read_done)) = I2C_ERR_noError
  /\ out_of_bounds (snd (i2c_getData 33 byte_read_done)) = true.
Proof. evaluate. Qed.

(** ** Faults under the auto-drain policy *)

(** Where the routine goes through [stopDueToError] with
    [i2c_stayInErrorState] false, a stop condition goes out, and its
    completion brings the driver to idle with the error still stored. *)
Lemma stopDueToError_drains (e : i2c_errors) (s : driver) :
  i2c_stayInErrorState s = false ->
  let s1 := stopDueToError e s in
  bus (regs s1) = bus (regs s) ++ [Stop]
  /\ i2c_state s1 = I2C_STATE_sendingStop
  /\ forall ev, ev_BCL ev = false ->
       i2c_state (on_completion ev s1) = I2C_STATE_idle
       /\ i2c_error (on_completion ev s1) = e.
Proof.
  intros H. unfold stopDueToError. cbn [i2c_stayInErrorState set_i2c_error].
  rewrite H. repeat split.
  - unfold on_completion, I2CInterruptRoutine, raise_interrupt. simpl.
    now rewrite H0.
  - unfold on_completion, I2CInterruptRoutine, raise_interrupt. simpl.
    now rewrite H0.
Qed.

(** C4 on the code, with [i2c_stayInErrorState] false. A collision during
    a write, an over-long [i2c_puts] or [i2c_gets] request, and a
    completion event in the idle state each leave the driver in the error
    state with no stop condition given to the bus, and later completion
    events do not move it. These paths assign [I2C_STATE_error] directly;
    only the slave-NACK path and the empty-buffer path use
    [stopDueToError]. *)
Lemma faults_that_do_not_drain :
  (let s := run [Call (Putc 80 16 7); Completion acked; Completion collision]
              auto_drain in
   i2c_stayInErrorState s = false
   /\ i2c_state s = I2C_STATE_error
   /\ i2c_error s = I2C_ERR_collisionDetected
   /\ bus (regs s) = [Start; Transmit 160]
   /\ i2c_state (run [Completion acked; Completion acked] s)
      = I2C_STATE_error)
  /\ (let r := i2c_puts 80 16 (replicate 31 1) 31 auto_drain in
      fst r = I2C_ERR_TXBufferOverflow
      /\ i2c_state (snd r) = I2C_STATE_error
      /\ bus (regs (snd r)) = []
      /\ i2c_state (run [Completion acked] (snd r)) = I2C_STATE_error)
  /\ (let r := i2c_gets 80 16 32 auto_drain in
      fst r = I2C_ERR_RXBufferOverflow
      /\ i2c_state (snd r) = I2C_STATE_error
      /\ bus (regs (snd r)) = [])
  /\ (let s := run [Completion acked] auto_drain in
      i2c_state s = I2C_STATE_error
      /\ i2c_error s = I2C_ERR_internal
      /\ bus (regs s) = []).
Proof. evaluate. Qed.

(** ** The transition table

    Every row describes one completion event without collision, as an
    equation between the [view] before and the [view] after. *)

Lemma u16_small (z : Z) : 0 <= z < 65536 -> u16 z = z.
Proof. intros H. unfold u16. now apply Z.mod_small. Qed.

Lemma uchar_byte (b : Z) : is_byte b -> uchar b = b.
Proof. intros H. unfold uchar. now apply Z.mod_small. Qed.

Lemma eqb_false (a b : Z) : a <> b -> (a =? b) = false.
Proof. apply Z.eqb_neq. Qed.

Section Transitions.

Variables (e : i2c_errors) (sy : bool) (buf : list Z) (l n : Z)
          (tr : list bus_op).
Hypothesis buf_length : length buf = 32%nat.

(** Start or restart completed, bytes left to send: the byte at the
    cursor goes out. *)
Lemma start_sends_first_byte (s : driver) (st : i2c_states) (k : nat) :
  st = I2C_STATE_sendingStart \/ st = I2C_STATE_sendingRestart ->
  view s = (st, e, sy, buf, Z.of_nat k, l, n, false, tr) ->
  (k < 32)%nat -> Z.of_nat k <> l ->
  view (on_completion acked s)
  = (I2C_STATE_dataTX, e, sy, buf, Z.of_nat (S k), l, n, false,
     tr ++ [Transmit (default 0 (buf !! k))]).
Proof.
  intros Hst Hv Hk Hne. open_view s Hv.
  destruct Hst as [-> | ->];
    rewrite (eqb_false _ _ Hne);
    unfold next_tx_byte, buf_load, buf_at; crunch;
    rewrite in_buffer_true by lia; crunch;
    rewrite u16_small by lia;
    rewrite Nat2Z.id;
    replace (Z.of_nat k + 1) with (Z.of_nat (S k)) by lia;
    reflexivity.
Qed.

(** A byte was acknowledged, bytes left to send: the next one goes
    out. *)
Lemma ack_sends_next_byte (s : driver) (k : nat) :
  view s = (I2C_STATE_dataTX, e, sy, buf, Z.of_nat k, l, n, false, tr) ->
  (k < 32)%nat -> Z.of_nat k <> l ->
  view (on_completion acked s)
  = (I2C_STATE_dataTX, e, sy, buf, Z.of_nat (S k), l, n, false,
     tr ++ [Transmit (default 0 (buf !! k))]).
Proof.
  intros Hv Hk Hne. open_view s Hv.
  rewrite (eqb_false _ _ Hne).
  unfold next_tx_byte, buf_load, buf_at. crunch.
  rewrite in_buffer_true by lia. crunch.
  rewrite u16_small by lia.
  rewrite Nat2Z.id.
  replace (Z.of_nat k + 1) with (Z.of_nat (S k)) by lia.
  reflexivity.
Qed.

(** All bytes acknowledged and nothing to read: stop. *)
Lemma write_ends_with_stop (s : driver) :
  view s = (I2C_STATE_dataTX, e, sy, buf, l, l, 0, false, tr) ->
  view (on_completion acked s)
  = (I2C_STATE_sendingStop, e, sy, buf, l, l, 0, false, tr ++ [Stop]).
Proof.
  intros Hv. open_view s Hv.
  rewrite Z.eqb_refl. reflexivity.
Qed.

(** All bytes acknowledged, bytes to read, address still in write
    direction: restart with the read address alone. *)
Lemma write_pivots_to_read (s : driver) :
  view s = (I2C_STATE_dataTX, e, sy, buf, l, l, n, false, tr) ->
  n <> 0 -> Z.land (default 0 (buf !! 0%nat)) 1 = 0 ->
  view (on_completion acked s)
  = (I2C_STATE_sendingRestart, e, sy,
     <[0%nat := Z.lor (default 0 (buf !! 0%nat)) 1]> buf, 0, 1, n, false,
     tr ++ [RepeatedStart]).
Proof.
  intros Hv Hn Hdir. open_view s Hv.
  rewrite Z.eqb_refl, (eqb_false _ _ Hn).
  unfold buf_at. crunch. change (Z.to_nat 0) with 0%nat.
  rewrite Hdir. reflexivity.
Qed.

(** The read address was acknowledged: receive. *)
Lemma read_address_arms_receive (s : driver) :
  view s = (I2C_STATE_dataTX, e, sy, buf, l, l, n, false, tr) ->
  n <> 0 -> Z.land (default 0 (buf !! 0%nat)) 1 <> 0 ->
  view (on_completion acked s)
  = (I2C_STATE_dataRX, e, sy, buf, 0, l, n, false, tr ++ [Receive]).
Proof.
  intros Hv Hn Hdir. open_view s Hv.
  rewrite Z.eqb_refl, (eqb_false _ _ Hn).
  unfold buf_at. crunch. change (Z.to_nat 0) with 0%nat.
  rewrite (eqb_false _ _ Hdir). reflexivity.
Qed.

(** A byte arrived: it is stored at the cursor; stop when the count is
    reached, acknowledge otherwise. *)
Lemma byte_received (s : driver) (k : nat) (b : Z) :
  view s = (I2C_STATE_dataRX, e, sy, buf, Z.of_nat k, l, n, false, tr) ->
  (k < 32)%nat -> is_byte b ->
  view (on_completion (received b) s)
  = if Z.of_nat (S k) =? n
    then (I2C_STATE_sendingStop, e, sy, <[k := b]> buf, Z.of_nat (S k),
          l, n, false, tr ++ [Stop])
    else (I2C_STATE_ack, e, sy, <[k := b]> buf, Z.of_nat (S k),
          l, n, false, tr ++ [Ack]).
Proof.
  intros Hv Hk Hb. open_view s Hv.
  unfold buf_store. crunch.
  rewrite in_buffer_true by lia. crunch.
  rewrite u16_small by lia. rewrite uchar_byte by assumption.
  rewrite Nat2Z.id.
  replace (Z.of_nat k + 1) with (Z.of_nat (S k)) by lia.
  destruct (Z.of_nat (S k) =? n); reflexivity.
Qed.

(** The acknowledge went out: receive the next byte. *)
Lemma ack_arms_receive (s : driver) (c : Z) :
  view s = (I2C_STATE_ack, e, sy, buf, c, l, n, false, tr) ->
  view (on_completion acked s)
  = (I2C_STATE_dataRX, e, sy, buf, c, l, n, false, tr ++ [Receive]).
Proof. intros Hv. open_view s Hv. reflexivity. Qed.

(** The stop condition went out: idle. *)
Lemma stop_completes (s : driver) (c : Z) :
  view s = (I2C_STATE_sendingStop, e, sy, buf, c, l, n, false, tr) ->
  view (on_completion acked s)
  = (I2C_STATE_idle, e, sy, buf, c, l, n, false, tr).
Proof. intros Hv. open_view s Hv. reflexivity. Qed.

End Transitions.

(** ** A register read from admission to retrieval *)

Lemma run_app (a b : list op) (s : driver) :
  run (a ++ b) s = run b (run a s).
Proof. unfold run. apply fold_left_app. Qed.

Lemma address_byte_write (address : Z) : Z.land (address_byte address) 1 = 0.
Proof.
  unfold address_byte. rewrite <- Z.land_assoc.
  change (Z.land 254 1) with 0. apply Z.land_0_r.
Qed.

Lemma read_bit_set (b : Z) : Z.land (Z.lor b 1) 1 <> 0.
Proof.
  intros H. apply land_1_testbit in H.
  rewrite lor_1_testbit in H by lia. discriminate.
Qed.

Lemma gets_accepted (address reg len : Z) (s : driver)
    sy buf c l n tr :
  length buf = 32%nat ->
  0 <= len <= 31 ->
  view s = (I2C_STATE_idle, I2C_ERR_noError, sy, buf, c, l, n, false, tr) ->
  fst (i2c_gets address reg len s) = I2C_ERR_noError
  /\ view (snd (i2c_gets address reg len s))
     = (I2C_STATE_sendingStart, I2C_ERR_noError, sy,
        <[1%nat := reg]> (<[0%nat := address_byte address]> buf),
        0, 2, len, false, tr ++ [Start]).
Proof.
  intros Hbuf Hlen Hv.
  destruct s as [? ? ? ? ? ? ? ? [? ? ? ? ? ? ? ? ? ? ?]].
  unfold view in Hv. cbn in Hv. injection Hv as -> -> -> -> -> -> -> -> ->.
  unfold i2c_gets, admission_guard. crunch.
  rewrite u16_small by lia.
  replace (I2C_TRX_BUFFER_SIZE <? 1 + len) with false
    by (symmetry; apply Z.ltb_ge; unfold I2C_TRX_BUFFER_SIZE; lia).
  split; reflexivity.
Qed.

(** The receive loop: from the receive state with the cursor at [k] and
    [length rx] bytes still expected, the events of [rx] store [rx] at
    [k] and end with the stop condition. *)
Lemma receive_loop (rx : list Z) :
  forall (s : driver) (k : nat) e sy buf l tr,
    rx <> [] -> Forall is_byte rx ->
    length buf = 32%nat -> (k + length rx <= 32)%nat ->
    view s = (I2C_STATE_dataRX, e, sy, buf, Z.of_nat k, l,
              Z.of_nat (k + length rx), false, tr) ->
    view (run (rx_events rx) s)
    = (I2C_STATE_sendingStop, e, sy,
       take k buf ++ rx ++ drop (k + length rx) buf,
       Z.of_nat (k + length rx), l, Z.of_nat (k + length rx), false,
       tr ++ rx_commands (length rx)).
Proof.
  induction rx as [|b rest IH]; intros s k e sy buf l tr Hne Hbytes Hbuf Hk Hv;
    [congruence|].
  apply Forall_cons in Hbytes as [Hb Hrest].
  pose proof (byte_received e sy buf l _ tr Hbuf s k b Hv) as Hstep.
  cbn [length] in *.
  specialize (Hstep ltac:(lia) Hb).
  destruct rest as [|b' rest'].
  - cbn [rx_events run fold_left step length] in *.
    replace (k + 1)%nat with (S k) in * by lia.
    rewrite Z.eqb_refl in Hstep. rewrite Hstep.
    rewrite (insert_take_drop buf k b) by lia.
    reflexivity.
  - rewrite (eqb_false (Z.of_nat (S k))) in Hstep by (cbn [length]; lia).
    apply ack_arms_receive in Hstep.
    replace (k + S (length (b' :: rest')))%nat
      with (S k + length (b' :: rest'))%nat in * by lia.
    assert (Hins : length (<[k := b]> buf) = 32%nat)
      by now rewrite length_insert.
    specialize (IH (on_completion acked (on_completion (received b) s))
                  (S k) e sy (<[k := b]> buf) l ((tr ++ [Ack]) ++ [Receive])
                  ltac:(discriminate) Hrest Hins Hk Hstep).
    change (run (rx_events (b :: b' :: rest')) s)
      with (run (rx_events (b' :: rest'))
              (on_completion acked (on_completion (received b) s))).
    rewrite IH.
    assert (Hget : <[k := b]> buf !! k = Some b)
      by (apply list_lookup_insert_eq; lia).
    rewrite (take_S_r _ _ _ Hget), take_insert_ge by lia.
    rewrite drop_insert_lt by lia.
    unfold rx_commands. cbn [length].
    replace (S (S (length rest')) - 1)%nat with (S (S (length rest') - 1))
      by lia.
    cbn [replicate concat]. rewrite <- !app_assoc. reflexivity.
Qed.

Lemma view_of (s : driver) :
  view s = (i2c_state s, i2c_error s, i2c_stayInErrorState s, TRXBuffer s,
            TRXBufferCurrPos s, TRXBufferLen s, numRXBytes s,
            out_of_bounds s, bus (regs s)).
Proof. reflexivity. Qed.

(** C6: a read request [i2c_gets( address, reg, N )] with 1 <= N <= 31,
    made in the idle state with no error latched, is accepted. With every
    byte sent acknowledged and the slave sending [rx] (N bytes), the
    completion events store exactly those N bytes, in order, at the head
    of the buffer; the bus sees N receive commands and then, as its last
    command, the one stop condition. After the stop has completed,
    [i2c_getData] with a destination of size N returns [rx]. *)
Theorem register_read_delivers (address reg : Z) (rx : list Z) (s : driver) :
  well_formed s ->
  i2c_state s = I2C_STATE_idle ->
  i2c_error s = I2C_ERR_noError ->
  (1 <= length rx <= 31)%nat ->
  Forall is_byte rx ->
  let N := Z.of_nat (length rx) in
  let accepted := i2c_gets address reg N s in
  let stopping := run (addressing ++ rx_events rx) (snd accepted) in
  let done := on_completion acked stopping in
  fst accepted = I2C_ERR_noError
  /\ i2c_state stopping = I2C_STATE_sendingStop
  /\ TRXBufferCurrPos stopping = N
  /\ take (length rx) (TRXBuffer stopping) = rx
  /\ bus (regs stopping)
     = bus (regs s) ++ read_commands address reg (length rx)
  /\ i2c_state done = I2C_STATE_idle
  /\ i2c_error done = I2C_ERR_noError
  /\ i2c_getData N done = (I2C_ERR_noError, rx, done).
Proof.
  intros [Hbuf Hoob] Hidle Herr Hn Hbytes N accepted stopping done.
  assert (Hrun : stopping
                 = run (rx_events rx)
                     (on_completion acked (on_completion acked
                        (on_completion acked (on_completion acked
                           (on_completion acked (snd accepted)))))))
    by (unfold stopping; now rewrite run_app).
  clearbody stopping.
  pose proof (view_of s) as H0. rewrite Hidle, Herr, Hoob in H0.
  destruct (gets_accepted address reg N s _ _ _ _ _ _ Hbuf ltac:(lia) H0)
    as [Hret H1].
  fold accepted in Hret, H1.
  set (buf1 := <[1%nat := reg]>
                 (<[0%nat := address_byte address]> (TRXBuffer s))) in H1.
  assert (Hbuf1 : length buf1 = 32%nat)
    by (unfold buf1; now rewrite !length_insert).
  assert (Hb0 : buf1 !! 0%nat = Some (address_byte address)).
  { unfold buf1. rewrite list_lookup_insert_ne by lia.
    apply list_lookup_insert_eq. lia. }
  assert (Hb1 : buf1 !! 1%nat = Some reg).
  { unfold buf1. apply list_lookup_insert_eq. rewrite length_insert. lia. }
  (* start completed: the address goes out *)
  apply (start_sends_first_byte _ _ _ _ _ _ Hbuf1 _ I2C_STATE_sendingStart 0)
    in H1; [|now left|lia|lia].
  (* address acknowledged: the register goes out *)
  apply (ack_sends_next_byte _ _ _ _ _ _ Hbuf1 _ 1) in H1; [|lia|lia].
  rewrite Hb0, Hb1 in H1. cbn [default] in H1.
  (* register acknowledged: restart for the read *)
  apply (write_pivots_to_read _ _ _ 2 N) in H1;
    [|lia|rewrite Hb0; apply address_byte_write].
  rewrite Hb0 in H1. cbn [default] in H1.
  set (buf2 := <[0%nat := Z.lor (address_byte address) 1]> buf1) in H1.
  assert (Hbuf2 : length buf2 = 32%nat)
    by (unfold buf2; now rewrite length_insert).
  assert (Hc0 : buf2 !! 0%nat = Some (Z.lor (address_byte address) 1))
    by (apply list_lookup_insert_eq; lia).
  (* restart completed: the read address goes out *)
  apply (start_sends_first_byte _ _ _ _ _ _ Hbuf2 _ I2C_STATE_sendingRestart 0)
    in H1; [|now right|lia|lia].
  rewrite Hc0 in H1. cbn [default] in H1.
  (* read address acknowledged: receive *)
  apply (read_address_arms_receive _ _ _ 1 N) in H1;
    [|lia|rewrite Hc0; apply read_bit_set].
  (* the bytes arrive *)
  apply (receive_loop rx _ 0) in H1;
    [|destruct rx; [simpl in Hn; lia | discriminate]
     |assumption|assumption|simpl; lia].
  rewrite <- Hrun in H1.
  cbn [take Nat.add app] in H1.
  pose proof (stop_completes _ _ _ _ _ _ _ _ H1) as H2. fold done in H2.
  clearbody done. clear Hrun.
  unfold view in H1, H2.
  injection H1 as S1 S2 S3 S4 S5 S6 S7 S8 S9.
  injection H2 as D1 D2 D3 D4 D5 D6 D7 D8 D9.
  assert (Htake : forall tl, take (length rx) (rx ++ tl) = rx)
    by (intros tl; now rewrite take_app_length).
  repeat split.
  - exact Hret.
  - exact S1.
  - exact S5.
  - rewrite S4. apply Htake.
  - rewrite S9. unfold read_commands. now rewrite <- !app_assoc.
  - exact D1.
  - exact D2.
  - rewrite getData_copies_len.
    + rewrite D4. unfold N. rewrite Nat2Z.id, Htake. reflexivity.
    + rewrite D4, length_app, length_drop. lia.
    + exact D1.
    + exact D2.
    + rewrite D5. unfold N. lia.
    + unfold N. lia.
Qed.

Lemma register_read_delivers_witness :
  let rx := [171; 205] in
  let s := initial 157 true 4 in
  let done :=
    on_completion acked
      (run (addressing ++ rx_events rx)
         (snd (i2c_gets 80 16 (Z.of_nat (length rx)) s))) in
  i2c_getData (Z.of_nat (length rx)) done = (I2C_ERR_noError, rx, done).
Proof.
  intros rx s.
  assert (Hwf : well_formed s) by (split; reflexivity).
  assert (Hlen : (1 <= length rx <= 31)%nat) by (simpl; lia).
  assert (Hbytes : Forall is_byte rx)
    by (repeat constructor; unfold is_byte; lia).
  exact (proj2 (proj2 (proj2 (proj2 (proj2 (proj2 (proj2
           (register_read_delivers 80 16 rx s Hwf eq_refl eq_refl
              Hlen Hbytes)))))))).
Defined.

(** ** The buffer invariant *)

(** C1, as the specification has it, fails twice. While the two bytes of
    a register read are received the cursor runs ahead of the length,
    which stays at 1 after the restart: at the stop condition the cursor
    is 2. And [i2c_puts] with [len] 0 and a string of 31 characters
    passes the capacity check, which looks at [len] before the string's
    length is substituted, returns success and sets the length to 33. *)
Lemma cursor_passes_length :
  (let s := run (Call (Gets 80 16 2) :: addressing ++ rx_events [171; 205])
              (initial 157 true 4) in
   active s = true
   /\ TRXBufferCurrPos s = 2
   /\ TRXBufferLen s = 1
   /\ ~ cursor_length_capacity s)
  /\ (let r := i2c_puts 80 16 long_string 0 (initial 157 true 4) in
      fst r = I2C_ERR_noError
      /\ payload_length long_string 0 = 31
      /\ TRXBufferLen (snd r) = 33
      /\ ~ TRXBufferLen (snd r) <= I2C_TRX_BUFFER_SIZE).
Proof.
  cbv zeta. repeat match goal with |- _ /\ _ => split end;
    try (vm_compute; reflexivity).
  - unfold cursor_length_capacity. vm_compute. intros [[_ H] _]. now apply H.
  - vm_compute. intros H. now apply H.
Qed.

Lemma strlen_nonneg (data : list Z) : 0 <= strlen data.
Proof.
  induction data as [|c rest IH]; simpl; [lia|].
  destruct (c =? 0); lia.
Qed.

(** Within the buffer the copy loop of [i2c_puts] changes buffer bytes
    and nothing else. *)
Lemma puts_copy_in_bounds (n : nat) (data : list Z) :
  forall (i : Z) (s : driver),
    0 <= i -> i + Z.of_nat n + 2 <= 32 ->
    exists buf,
      length buf = length (TRXBuffer s)
      /\ puts_copy n i data s = set_TRXBuffer buf s.
Proof.
  induction n as [|n IH]; intros i s Hi Hn.
  - exists (TRXBuffer s). split; [reflexivity|]. now destruct s.
  - cbn [puts_copy]. unfold buf_store.
    rewrite u16_small by lia. rewrite in_buffer_true by lia.
    destruct (IH (i + 1)
                (set_TRXBuffer
                   (<[Z.to_nat (i + 2) := data_at data i]> (TRXBuffer s)) s))
      as (buf & Hlen & Heq); [lia|lia|].
    exists buf. split.
    + rewrite Hlen. cbn [TRXBuffer set_TRXBuffer]. apply length_insert.
    + rewrite Heq. reflexivity.
Qed.

(** The length [i2c_puts] sets on success. *)
Lemma puts_length (address reg : Z) (data : list Z) (len : Z) (s : driver) :
  0 <= len <= 65533 ->
  (len = 0 -> strlen data <= 30) ->
  fst (i2c_puts address reg data len s) = I2C_ERR_noError ->
  TRXBufferLen (snd (i2c_puts address reg data len s))
  = 2 + payload_length data len
  /\ 2 + payload_length data len <= I2C_TRX_BUFFER_SIZE
  /\ (length (TRXBuffer s) = 32%nat -> out_of_bounds s = false ->
      buffer_inv (snd (i2c_puts address reg data len s))).
Proof.
  intros Hlen Hstr. unfold i2c_puts, payload_length.
  destruct (admission_guard s) as [[e s']|] eqn:G.
  - cbn [fst snd]. intros ->.
    destruct (guard_rejects _ _ _ G) as [[? _]|([?|?] & _)]; discriminate.
  - rewrite u16_small by lia.
    destruct (Z.ltb_spec I2C_TRX_BUFFER_SIZE (2 + len)) as [|Hfit];
      [cbn [fst]; discriminate|].
    unfold I2C_TRX_BUFFER_SIZE in *. intros _.
    pose proof (strlen_nonneg data) as Hnn.
    set (len' := if len =? 0 then u16 (strlen data) else len).
    assert (Hlen' : len' = if len =? 0 then strlen data else len).
    { unfold len'. destruct (Z.eqb_spec len 0) as [H0|]; [|reflexivity].
      apply u16_small. specialize (Hstr H0). lia. }
    assert (Hle : 0 <= len' <= 30).
    { rewrite Hlen'. destruct (Z.eqb_spec len 0) as [H0|]; [|lia].
      specialize (Hstr H0). lia. }
    cbn [snd]. rewrite <- Hlen'.
    unfold buf_store.
    change (in_buffer 0) with true. change (in_buffer 1) with true. cbv iota.
    match goal with
    | |- context [puts_copy ?n ?i ?d ?t] =>
        destruct (puts_copy_in_bounds n d i t) as (buf & Hbuf & ->);
          [lia|lia|]
    end.
    cbn -[Z.add] in Hbuf |- *.
    rewrite u16_small by lia.
    split; [reflexivity|]. split; [lia|].
    intros Hl Ho. unfold buffer_inv. cbn -[Z.add].
    rewrite Hbuf, !length_insert. unfold I2C_TRX_BUFFER_SIZE.
    repeat split; try assumption; lia.
Qed.

(** The interrupt routine keeps the invariant, whatever the status
    registers show. *)
Lemma isr_keeps_inv (s : driver) :
  buffer_inv s -> buffer_inv (I2CInterruptRoutine s).
Proof.
  destruct s as [st er sy buf c l n oob r].
  intros (Hl & Ho & H). cbn in Hl, Ho, H. subst oob.
  unfold I2C_TRX_BUFFER_SIZE in H.
  unfold I2CInterruptRoutine. crunch.
  destruct (BCL r); [close_inv|].
  destruct st; crunch.
  - (* idle *) close_inv.
  - (* sendingStart *)
    destruct (Z.eqb_spec c l) as [->|Hne].
    + unfold stopDueToError. crunch. destruct sy; close_inv.
    + unfold next_tx_byte, buf_load. crunch.
      rewrite in_buffer_true by lia. crunch.
      rewrite u16_small by lia. close_inv.
  - (* dataTX *)
    destruct (ACKSTAT r).
    { unfold stopDueToError. crunch. destruct sy; close_inv. }
    destruct (Z.eqb_spec c l) as [->|Hne].
    + destruct (Z.eqb_spec n 0) as [->|Hn]; crunch; [close_inv|].
      destruct (Z.land _ 1 =? 0); unfold buf_store;
        change (in_buffer 0) with true; crunch; close_inv.
    + unfold next_tx_byte, buf_load. crunch.
      rewrite in_buffer_true by lia. crunch.
      rewrite u16_small by lia. close_inv.
  - (* sendingRestart *)
    destruct (Z.eqb_spec c l) as [->|Hne].
    + unfold stopDueToError. crunch. destruct sy; close_inv.
    + unfold next_tx_byte, buf_load. crunch.
      rewrite in_buffer_true by lia. crunch.
      rewrite u16_small by lia. close_inv.
  - (* sendingStop *) close_inv.
  - (* dataRX *)
    unfold buf_store. crunch.
    rewrite in_buffer_true by lia. crunch.
    rewrite u16_small by lia.
    destruct (Z.eqb_spec (c + 1) n); close_inv.
  - (* ack *) close_inv.
  - (* error *) close_inv.
  - (* disabled *) close_inv.
Qed.

(** Every foreground request within the reach of the checks keeps the
    invariant. *)
Lemma call_keeps_inv (q : request) (s : driver) :
  buffer_inv s -> sized (Call q) -> buffer_inv (snd (call q s)).
Proof.
  intros Hinv Hq.
  destruct (admission_guard s) as [[e s']|] eqn:G.
  - rewrite (call_guarded q s _ G). cbn [snd].
    destruct (guard_rejects _ _ _ G) as [[_ ->]|(_ & -> & _)]; exact Hinv.
  - pose proof Hinv as (Hl & Ho & _).
    destruct q as [a r d|a r data len|a r|a r len|len]; cbn [call].
    + unfold i2c_putc. rewrite G. unfold buf_store.
      change (in_buffer 0) with true. change (in_buffer 1) with true.
      change (in_buffer 2) with true.
      destruct s; cbn in Hl, Ho. close_inv.
    + destruct Hq as [Hlen Hstr].
      destruct (fst (i2c_puts a r data len s)) eqn:E;
        try (revert E; unfold i2c_puts; rewrite G;
             destruct (_ <? _); cbn [fst snd];
             first [discriminate | intros _; destruct s; close_inv]).
      now apply (puts_length a r data len s Hlen Hstr E).
    + unfold i2c_getc. rewrite G. unfold buf_store.
      change (in_buffer 0) with true. change (in_buffer 1) with true.
      destruct s; cbn in Hl, Ho. close_inv.
    + cbn [sized] in Hq. unfold i2c_gets. rewrite G.
      change (I2C_TRX_BUFFER_SIZE <? 2) with false. cbv iota.
      rewrite u16_small by lia.
      destruct (Z.ltb_spec I2C_TRX_BUFFER_SIZE (1 + len)) as [|Hfit];
        [destruct s; close_inv|].
      unfold buf_store.
      change (in_buffer 0) with true. change (in_buffer 1) with true.
      destruct s; cbn in Hl, Ho. close_inv.
    + cbn [sized] in Hq. unfold i2c_getData. rewrite G.
      destruct (_ =? 0); [exact Hinv|].
      destruct (_ <? _); [exact Hinv|].
      rewrite getData_copy_in_bounds by (try assumption; lia).
      exact Hinv.
Qed.

Lemma step_keeps_inv (o : op) (s : driver) :
  buffer_inv s -> sized o -> buffer_inv (step o s).
Proof.
  intros Hinv Ho. destruct o; cbn [step].
  - now apply call_keeps_inv.
  - apply isr_keeps_inv. exact Hinv.
  - destruct Hinv as (? & ? & _). destruct s; close_inv.
  - destruct Hinv as (? & ? & _). destruct s; close_inv.
  - destruct Hinv as (? & ? & _). destruct s; close_inv.
  - destruct Hinv as (? & ? & _). destruct s; close_inv.
  - exact Hinv.
Qed.

Lemma initial_inv (brg : Z) (slew : bool) (pri : Z) :
  buffer_inv (initial brg slew pri).
Proof. repeat split. Qed.

(** C1, amended. With every request within the reach of the capacity
    checks, any sequence of admission calls, completion events and the
    other driver operations keeps [buffer_inv]: the buffer is never left;
    in the start, transmit and restart states
    [0 <= cursor <= length <= 32]; in the receive and acknowledge states
    [0 <= cursor < numRXBytes <= 31] and at the stop condition
    [0 <= cursor <= 32], the length staying within [0, 32]. And every
    [i2c_puts] call that returns success, with [len] in 1..65533 or with
    [len] 0 and a string of at most 30 characters, sets the length to
    2 + payload length, which is at most 32. *)
Theorem buffer_invariant :
  (forall (ops : list op) (s : driver),
      buffer_inv s -> Forall sized ops -> buffer_inv (run ops s))
  /\ (forall (address reg : Z) (data : list Z) (len : Z) (s : driver),
        0 <= len <= 65533 ->
        (len = 0 -> strlen data <= 30) ->
        fst (i2c_puts address reg data len s) = I2C_ERR_noError ->
        TRXBufferLen (snd (i2c_puts address reg data len s))
        = 2 + payload_length data len
        /\ TRXBufferLen (snd (i2c_puts address reg data len s))
           <= I2C_TRX_BUFFER_SIZE).
Proof.
  split.
  - intros ops s Hinv Hops. revert s Hinv.
    induction Hops as [|o ops Ho _ IH]; intros s Hinv; [exact Hinv|].
    cbn [run fold_left]. apply IH. now apply step_keeps_inv.
  - intros address reg data len s Hlen Hstr Hok.
    destruct (puts_length address reg data len s Hlen Hstr Hok)
      as (Heq & Hle & _).
    rewrite Heq. auto.
Qed.

Lemma buffer_invariant_witness :
  buffer_inv
    (run [Call (Gets 80 16 2); Completion acked; Completion acked;
          Completion acked; Completion acked; Completion acked;
          Completion (received 171); Completion acked;
          Completion (received 205)]
       (initial 157 true 4))
  /\ TRXBufferLen
       (snd (i2c_puts 80 16 [170; 187; 204; 221; 238] 5 (initial 157 true 4)))
     <= I2C_TRX_BUFFER_SIZE.
Proof.
  split.
  - apply (proj1 buffer_invariant).
    + apply initial_inv.
    + repeat (apply Forall_cons; split; [cbn; first [lia | exact I]|]).
      apply Forall_nil. exact I.
  - apply (proj2 buffer_invariant 80 16 [170; 187; 204; 221; 238] 5
             (initial 157 true 4)).
    + lia.
    + intros H. discriminate H.
    + reflexivity.
Defined.

(** * Further properties of the driver *)

(** ** What the copy loops leave alone *)

Lemma buf_store_control (i v : Z) (s : driver) :
  control (buf_store i v s) = control s.
Proof. unfold buf_store. now destruct (in_buffer i). Qed.

Lemma puts_copy_control (n : nat) (data : list Z) :
  forall (i : Z) (s : driver), control (puts_copy n i data s) = control s.
Proof.
  induction n as [|n IH]; intros i s; [reflexivity|].
  cbn [puts_copy]. rewrite IH. apply buf_store_control.
Qed.

Lemma getData_copy_control (n : nat) :
  forall (i : Z) (s : driver),
    control (snd (getData_copy n i s)) = control s
    /\ TRXBuffer (snd (getData_copy n i s)) = TRXBuffer s.
Proof.
  induction n as [|n IH]; intros i s; [now split|].
  cbn [getData_copy]. unfold buf_load.
  destruct (getData_copy n (i + 1)
              (if in_buffer i then s else raise_out_of_bounds s))
    as [rest s'] eqn:E.
  pose proof (IH (i + 1) (if in_buffer i then s else raise_out_of_bounds s))
    as [Hc Hb].
  rewrite E in Hc, Hb. cbn [snd] in *. rewrite Hc, Hb.
  now destruct (in_buffer i).
Qed.

Lemma control_error (s s' : driver) :
  control s' = control s -> i2c_error s' = i2c_error s.
Proof. unfold control. now intros [= _ -> _ _ _ _ _]. Qed.

(** ** Return codes and the latched error *)

(** Without an error latched, the code a request returns is the code it
    leaves in [i2c_error], and it is not [I2C_ERR_inErrorState]. *)
Lemma call_without_fault (q : request) (s : driver) :
  i2c_error s = I2C_ERR_noError ->
  i2c_error (snd (call q s)) = fst (call q s)
  /\ fst (call q s) <> I2C_ERR_inErrorState.
Proof.
  intros He.
  destruct (admission_guard s) as [[e s']|] eqn:G.
  - rewrite (call_guarded q s _ G). cbn [fst snd].
    destruct (guard_rejects _ _ _ G) as [[-> ->]|(Hcode & -> & _)].
    + unfold admission_guard in G. rewrite He in G. cbn in G.
      destruct (state_eqb _ _); [discriminate|].
      destruct (negb _); discriminate.
    + split; [reflexivity|]. destruct Hcode as [-> | ->]; discriminate.
  - destruct q as [a r d|a r data len|a r|a r len|len]; cbn [call].
    + unfold i2c_putc. rewrite G. cbn. split; [exact He|discriminate].
    + unfold i2c_puts. rewrite G.
      destruct (_ <? _); cbn [fst snd]; [split; [reflexivity|discriminate]|].
      split; [|discriminate].
      unfold sendStartCondition, command, waitUntilIdle.
      cbn [i2c_error set_i2c_state set_regs set_numRXBytes].
      rewrite (control_error _ _ (puts_copy_control _ _ _ _)).
      rewrite !(control_error _ _ (buf_store_control _ _ _)).
      exact He.
    + unfold i2c_getc. rewrite G. cbn. split; [exact He|discriminate].
    + unfold i2c_gets. rewrite G.
      change (I2C_TRX_BUFFER_SIZE <? 2) with false. cbv iota.
      destruct (_ <? _); cbn; split;
        first [reflexivity | exact He | discriminate].
    + unfold i2c_getData. rewrite G.
      destruct (_ =? 0); [cbn; split; [reflexivity|discriminate]|].
      destruct (_ <? _); [cbn; split; [reflexivity|discriminate]|].
      destruct (getData_copy _ _ _) as [w s'] eqn:E. cbn [fst snd].
      split; [|discriminate].
      pose proof (getData_copy_control (Z.to_nat len) 0 s) as [Hc _].
      rewrite E in Hc. cbn [snd] in Hc.
      now rewrite (control_error _ _ Hc).
Qed.

(** The code a request returns and [i2c_error] afterwards, for the five
    functions of the request API: with an error latched the request
    returns [I2C_ERR_inErrorState] and changes nothing at all; without,
    the request never returns [I2C_ERR_inErrorState], and the code it
    returns, success included, is what [i2c_error] holds afterwards. *)
Theorem request_code_is_latched (q : request) (s : driver) :
  if error_set (i2c_error s)
  then call q s = (I2C_ERR_inErrorState, s)
  else i2c_error (snd (call q s)) = fst (call q s)
       /\ fst (call q s) <> I2C_ERR_inErrorState.
Proof.
  destruct (error_set (i2c_error s)) eqn:He.
  - apply call_guarded, guard_faulted, He.
  - apply call_without_fault. now apply error_set_noError.
Qed.

(** A request that returns any code other than success leaves an error
    latched, and from then on every request, [i2c_getData] included,
    returns [I2C_ERR_inErrorState] until [i2c_reset], [i2c_init] or
    [i2c_enable] is called. This holds for a failed [i2c_getData]
    (nothing received, destination too small) and for a capacity
    overflow as it does for busy and disabled. *)
Theorem refusal_poisons_until_reset (q : request) (s : driver) :
  fst (call q s) <> I2C_ERR_noError ->
  forall (ops : list op) (q' : request),
    Forall (fun o => calls_reset o = false) ops ->
    call q' (run ops (snd (call q s)))
    = (I2C_ERR_inErrorState, run ops (snd (call q s))).
Proof.
  intros Hfail ops q' Hops.
  assert (Hset : error_set (i2c_error (snd (call q s))) = true).
  { destruct (error_set (i2c_error s)) eqn:He.
    - now rewrite (call_guarded q s _ (guard_faulted s He)).
    - apply error_set_noError in He.
      destruct (call_without_fault q s He) as [-> _].
      now apply error_set_true. }
  apply call_guarded, guard_faulted, run_keeps_error; assumption.
Qed.

Lemma refusal_poisons_until_reset_witness :
  call (GetData 8)
    (run [Call (Putc 80 16 7)] (snd (call (GetData 8) (initial 157 true 4))))
  = (I2C_ERR_inErrorState,
     run [Call (Putc 80 16 7)] (snd (call (GetData 8) (initial 157 true 4)))).
Proof.
  refine (refusal_poisons_until_reset (GetData 8) (initial 157 true 4) _
            [Call (Putc 80 16 7)] (GetData 8) _).
  - vm_compute. discriminate.
  - repeat constructor.
Defined.

(** ** When a request is admitted *)

(** [i2c_putc] and [i2c_getc] succeed exactly when the driver is idle
    with no error latched: their capacity checks compare constants and
    never fire. *)
Theorem byte_requests_admitted_iff_idle (address reg data : Z) (s : driver) :
  (fst (i2c_putc address reg data s) = I2C_ERR_noError
   <-> i2c_state s = I2C_STATE_idle /\ i2c_error s = I2C_ERR_noError)
  /\ (fst (i2c_getc address reg s) = I2C_ERR_noError
      <-> i2c_state s = I2C_STATE_idle /\ i2c_error s = I2C_ERR_noError).
Proof.
  assert (Hguard : forall e' s',
             admission_guard s = Some (e', s') -> e' <> I2C_ERR_noError).
  { intros e' s' G.
    destruct (guard_rejects _ _ _ G) as [[-> _]|([->| ->] & _)]; discriminate. }
  assert (Hnone : admission_guard s = None
                  <-> i2c_state s = I2C_STATE_idle
                      /\ i2c_error s = I2C_ERR_noError).
  { split.
    - unfold admission_guard.
      destruct (error_set (i2c_error s)) eqn:He; [discriminate|].
      apply error_set_noError in He.
      destruct (state_eqb (i2c_state s) I2C_STATE_disabled); [discriminate|].
      destruct (state_eqb (i2c_state s) I2C_STATE_idle) eqn:Hi;
        [|discriminate].
      apply state_eqb_eq in Hi. auto.
    - intros [Hi He]. now apply guard_idle. }
  unfold i2c_putc, i2c_getc.
  destruct (admission_guard s) as [[e' s']|] eqn:G.
  - specialize (Hguard _ _ eq_refl). cbn [fst].
    split; (split; [intros; contradiction|]);
      intros H; apply Hnone in H; discriminate.
  - cbn. split; (split; [intros _; now apply Hnone | reflexivity]).
Qed.

(** The decision of [i2c_puts], for every [len] a [size_t] holds: success
    exactly when the driver is idle with no error latched and [len] is at
    most 30, or is 65534 or 65535, where [2 + len] wraps to 0 or 1 and
    passes the capacity check. *)
Theorem puts_admitted_iff (address reg : Z) (data : list Z) (len : Z)
    (s : driver) :
  0 <= len <= 65535 ->
  (fst (i2c_puts address reg data len s) = I2C_ERR_noError
   <-> i2c_state s = I2C_STATE_idle /\ i2c_error s = I2C_ERR_noError
       /\ (len <= 30 \/ 65534 <= len)).
Proof.
  intros Hlen. unfold i2c_puts.
  destruct (admission_guard s) as [[e' s']|] eqn:G.
  - cbn [fst]. split.
    + intros ->.
      destruct (guard_rejects _ _ _ G) as [[? _]|([?|?] & _)]; discriminate.
    + intros (Hi & He & _). rewrite (guard_idle s He Hi) in G. discriminate.
  - assert (Hidle : i2c_state s = I2C_STATE_idle
                    /\ i2c_error s = I2C_ERR_noError).
    { revert G. unfold admission_guard.
      destruct (error_set (i2c_error s)) eqn:He; [discriminate|].
      apply error_set_noError in He.
      destruct (state_eqb (i2c_state s) I2C_STATE_disabled); [discriminate|].
      destruct (state_eqb (i2c_state s) I2C_STATE_idle) eqn:Hi;
        [|discriminate].
      apply state_eqb_eq in Hi. auto. }
    assert (Hwrap : u16 (2 + len)
                    = if 65534 <=? len then len - 65534 else 2 + len).
    { unfold u16. destruct (Z.leb_spec 65534 len).
      - replace (2 + len) with (len - 65534 + 1 * 65536) by lia.
        rewrite Z.mod_add by lia. apply Z.mod_small. lia.
      - apply Z.mod_small. lia. }
    rewrite Hwrap. unfold I2C_TRX_BUFFER_SIZE.
    destruct (Z.leb_spec 65534 len);
      (match goal with
       | |- context [32 <? ?x] => destruct (Z.ltb_spec 32 x)
       end; cbn [fst];
       (split;
        [try discriminate; intros _; repeat split; try apply Hidle; lia
        |try reflexivity; intros (_ & _ & [?|?]); lia])).
Qed.

Lemma puts_admitted_iff_witness :
  fst (i2c_puts 80 16 [1; 2; 3] 3 (initial 157 true 4)) = I2C_ERR_noError
  <-> i2c_state (initial 157 true 4) = I2C_STATE_idle
      /\ i2c_error (initial 157 true 4) = I2C_ERR_noError
      /\ (3 <= 30 \/ 65534 <= 3).
Proof.
  apply (puts_admitted_iff 80 16 [1; 2; 3] 3 (initial 157 true 4)). lia.
Defined.

(** The decision of [i2c_gets], for every [len] a [size_t] holds: success
    exactly when the driver is idle with no error latched and [len] is at
    most 31, or is 65535, where [1 + len] wraps to 0. *)
Theorem gets_admitted_iff (address reg len : Z) (s : driver) :
  0 <= len <= 65535 ->
  (fst (i2c_gets address reg len s) = I2C_ERR_noError
   <-> i2c_state s = I2C_STATE_idle /\ i2c_error s = I2C_ERR_noError
       /\ (len <= 31 \/ len = 65535)).
Proof.
  intros Hlen. unfold i2c_gets.
  destruct (admission_guard s) as [[e' s']|] eqn:G.
  - cbn [fst]. split.
    + intros ->.
      destruct (guard_rejects _ _ _ G) as [[? _]|([?|?] & _)]; discriminate.
    + intros (Hi & He & _). rewrite (guard_idle s He Hi) in G. discriminate.
  - assert (Hidle : i2c_state s = I2C_STATE_idle
                    /\ i2c_error s = I2C_ERR_noError).
    { revert G. unfold admission_guard.
      destruct (error_set (i2c_error s)) eqn:He; [discriminate|].
      apply error_set_noError in He.
      destruct (state_eqb (i2c_state s) I2C_STATE_disabled); [discriminate|].
      destruct (state_eqb (i2c_state s) I2C_STATE_idle) eqn:Hi;
        [|discriminate].
      apply state_eqb_eq in Hi. auto. }
    assert (Hwrap : u16 (1 + len) = if 65535 <=? len then 0 else 1 + len).
    { unfold u16. destruct (Z.leb_spec 65535 len).
      - replace (1 + len) with 65536 by lia. reflexivity.
      - apply Z.mod_small. lia. }
    change (I2C_TRX_BUFFER_SIZE <? 2) with false. cbv iota.
    rewrite Hwrap. unfold I2C_TRX_BUFFER_SIZE.
    destruct (Z.leb_spec 65535 len);
      (match goal with
       | |- context [32 <? ?x] => destruct (Z.ltb_spec 32 x)
       end; cbn [fst];
       (split;
        [try discriminate; intros _; repeat split; try apply Hidle; lia
        |try reflexivity; intros (_ & _ & [?|?]); lia])).
Qed.

Lemma gets_admitted_iff_witness :
  fst (i2c_gets 80 16 31 (initial 157 true 4)) = I2C_ERR_noError
  <-> i2c_state (initial 157 true 4) = I2C_STATE_idle
      /\ i2c_error (initial 157 true 4) = I2C_ERR_noError
      /\ (31 <= 31 \/ 31 = 65535).
Proof.
  apply (gets_admitted_iff 80 16 31 (initial 157 true 4)). lia.
Defined.

(** A request too long for the buffer, made to an idle driver with no
    error latched: [i2c_puts] with [len] from 31 to 65533 returns
    [I2C_ERR_TXBufferOverflow], [i2c_gets] with [len] from 32 to 65534
    returns [I2C_ERR_RXBufferOverflow]. Either way the driver is left in
    the error state with that code latched and nothing else touched: the
    buffer, the cursor, the length, the read count and the bus are as
    before. *)
Theorem oversized_request_rejected (address reg : Z) (data : list Z)
    (len : Z) (s : driver) :
  i2c_state s = I2C_STATE_idle ->
  i2c_error s = I2C_ERR_noError ->
  (31 <= len <= 65533 ->
   i2c_puts address reg data len s
   = (I2C_ERR_TXBufferOverflow,
      set_i2c_error I2C_ERR_TXBufferOverflow
        (set_i2c_state I2C_STATE_error s)))
  /\ (32 <= len <= 65534 ->
      i2c_gets address reg len s
      = (I2C_ERR_RXBufferOverflow,
         set_i2c_error I2C_ERR_RXBufferOverflow
           (set_i2c_state I2C_STATE_error s))).
Proof.
  intros Hi He. split; intros Hlen.
  - unfold i2c_puts. rewrite (guard_idle s He Hi).
    rewrite u16_small by lia.
    replace (I2C_TRX_BUFFER_SIZE <? 2 + len) with true; [reflexivity|].
    symmetry. apply Z.ltb_lt. unfold I2C_TRX_BUFFER_SIZE. lia.
  - unfold i2c_gets. rewrite (guard_idle s He Hi).
    change (I2C_TRX_BUFFER_SIZE <? 2) with false. cbv iota.
    rewrite u16_small by lia.
    replace (I2C_TRX_BUFFER_SIZE <? 1 + len) with true; [reflexivity|].
    symmetry. apply Z.ltb_lt. unfold I2C_TRX_BUFFER_SIZE. lia.
Qed.

Lemma oversized_request_rejected_witness :
  i2c_puts 80 16 (replicate 31 1) 31 (initial 157 true 4)
  = (I2C_ERR_TXBufferOverflow,
     set_i2c_error I2C_ERR_TXBufferOverflow
       (set_i2c_state I2C_STATE_error (initial 157 true 4))).
Proof.
  refine (proj1 (oversized_request_rejected 80 16 (replicate 31 1) 31
                   (initial 157 true 4) _ _) _);
    first [reflexivity | lia].
Defined.

(** ** The single-byte requests and the string form *)

(** [i2c_putc] does what [i2c_puts] does with a one-byte payload, and
    [i2c_getc] what [i2c_gets] does with a count of 1, in every driver
    state: same return code, same driver afterwards. *)
Theorem byte_requests_are_unit_requests (address reg data : Z) (s : driver) :
  i2c_putc address reg data s = i2c_puts address reg [data] 1 s
  /\ i2c_getc address reg s = i2c_gets address reg 1 s.
Proof.
  unfold i2c_putc, i2c_puts, i2c_getc, i2c_gets.
  destruct (admission_guard s); split; reflexivity.
Qed.

Lemma strlen_upper (data : list Z) : strlen data <= Z.of_nat (length data).
Proof.
  induction data as [|c rest IH]; [reflexivity|].
  cbn [strlen length]. destruct (c =? 0); lia.
Qed.

(** [i2c_puts] with [len] 0 treats [data] as a string: for a string of 1
    to 30 characters it does exactly what the call with the string's
    length does. *)
Theorem puts_zero_len_takes_strlen (address reg : Z) (data : list Z)
    (s : driver) :
  1 <= strlen data <= 30 ->
  i2c_puts address reg data 0 s
  = i2c_puts address reg data (strlen data) s.
Proof.
  intros Hstr. unfold i2c_puts.
  destruct (admission_guard s); [reflexivity|].
  replace (strlen data =? 0) with false by (symmetry; apply Z.eqb_neq; lia).
  change (0 =? 0) with true. cbv iota.
  rewrite (u16_small (strlen data)) by lia.
  rewrite !(u16_small (2 + strlen data)) by lia.
  change (u16 (2 + 0)) with 2. unfold I2C_TRX_BUFFER_SIZE.
  change (32 <? 2) with false.
  replace (32 <? 2 + strlen data) with false
    by (symmetry; apply Z.ltb_ge; lia).
  reflexivity.
Qed.

Lemma puts_zero_len_takes_strlen_witness :
  i2c_puts 80 16 [72; 105; 0] 0 (initial 157 true 4)
  = i2c_puts 80 16 [72; 105; 0] (strlen [72; 105; 0]) (initial 157 true 4).
Proof.
  apply (puts_zero_len_takes_strlen 80 16 [72; 105; 0] (initial 157 true 4)).
  cbn. lia.
Defined.

(** ** The address byte *)

(** The address byte is twice the low seven bits of the address: the
    shift drops bit 7 of an 8-bit address and the direction bit is 0.
    Setting the read bit adds 1. *)
Theorem address_byte_value (address : Z) :
  address_byte address = 2 * (address mod 128)
  /\ Z.lor (address_byte address) 1 = 2 * (address mod 128) + 1.
Proof.
  assert (H : address_byte address = 2 * (address mod 128)).
  { unfold address_byte. change 254 with (Z.shiftl (Z.ones 7) 1).
    rewrite <- Z.shiftl_land, Z.land_ones by lia.
    rewrite Z.shiftl_mul_pow2 by lia. change (2 ^ 7) with 128.
    change (2 ^ 1) with 2. lia. }
  split; [exact H|].
  rewrite H. apply Z.bits_inj'. intros n Hn.
  rewrite lor_1_testbit by lia.
  destruct (Z.eqb_spec n 0) as [->|Hne].
  - symmetry. apply (Z.testbit_odd_0 (address mod 128)).
  - replace n with (Z.succ (n - 1)) by lia.
    rewrite Z.testbit_odd_succ, Z.testbit_even_succ by lia. reflexivity.
Qed.

(** ** Reset, initialisation and the settings *)

(** [i2c_reset] brings any driver, busy, faulted or disabled, to idle
    with no error and the collision bit cleared, and touches nothing
    else; the next single-byte request is admitted. *)
Theorem reset_recovers (address reg data : Z) (s : driver) :
  let s' := i2c_reset s in
  i2c_state s' = I2C_STATE_idle
  /\ i2c_error s' = I2C_ERR_noError
  /\ BCL (regs s') = false
  /\ i2c_busy s' = false
  /\ view s' = (I2C_STATE_idle, I2C_ERR_noError, i2c_stayInErrorState s,
                TRXBuffer s, TRXBufferCurrPos s, TRXBufferLen s,
                numRXBytes s, out_of_bounds s, bus (regs s))
  /\ settings s' = settings s
  /\ fst (i2c_putc address reg data s') = I2C_ERR_noError
  /\ fst (i2c_getc address reg s') = I2C_ERR_noError
  /\ i2c_state (snd (i2c_putc address reg data s')) = I2C_STATE_sendingStart.
Proof. cbv zeta. repeat split. Qed.

(** [i2c_init] leaves the module and its interrupt enabled, the
    interrupt flag and the acknowledge bit cleared, the driver idle with
    no error, and the priority at a valid level: the argument when it is
    between 0 and 7, and 1 otherwise. The buffer and the bus are not
    touched. *)
Theorem init_configures (brg : Z) (slew : bool) (pri : Z) (s : driver) :
  let s' := i2c_init brg slew pri s in
  settings s'
  = (u16 brg, negb slew, if (0 <=? pri) && (pri <=? 7) then pri else 1)
  /\ 0 <= MI2CIP (regs s') <= 7
  /\ I2CEN (regs s') = true
  /\ MI2CIE (regs s') = true
  /\ MI2CIF (regs s') = false
  /\ ACKDT (regs s') = false
  /\ view s' = (I2C_STATE_idle, I2C_ERR_noError, i2c_stayInErrorState s,
                TRXBuffer s, TRXBufferCurrPos s, TRXBufferLen s,
                numRXBytes s, out_of_bounds s, bus (regs s)).
Proof.
  cbv zeta. split; [reflexivity|]. split; [|repeat split].
  cbn. destruct (Z.leb_spec 0 pri); destruct (Z.leb_spec pri 7); cbn; lia.
Qed.

(** The driver [i2c_init] leaves, written out. *)
Lemma init_explicit (brg : Z) (slew : bool) (pri : Z) (s : driver) :
  i2c_init brg slew pri s
  = mk_driver I2C_STATE_idle I2C_ERR_noError (i2c_stayInErrorState s)
      (TRXBuffer s) (TRXBufferCurrPos s) (TRXBufferLen s) (numRXBytes s)
      (out_of_bounds s)
      (mk_sfr (u16 brg) true (negb slew) false false (ACKSTAT (regs s))
         (I2CRCV (regs s)) true
         (if (0 <=? pri) && (pri <=? 7) then pri else 1) false
         (bus (regs s))).
Proof. reflexivity. Qed.

(** Disabling and enabling an initialised driver gives back exactly the
    driver [i2c_init] left: [i2c_enable] re-runs [i2c_init] with the
    settings read back from the registers. *)
Theorem enable_restores_init (brg : Z) (slew : bool) (pri : Z) (s : driver) :
  i2c_enable (i2c_disable (i2c_init brg slew pri s))
  = i2c_init brg slew pri s.
Proof.
  unfold i2c_enable, getI2CInterruptPriority.
  rewrite !init_explicit.
  cbn [i2c_disable disableI2CInterrupt set_regs set_i2c_state set_MI2CIE
       set_I2CEN regs I2CBRG DISSLW MI2CIP ACKSTAT I2CRCV bus
       i2c_stayInErrorState TRXBuffer TRXBufferCurrPos TRXBufferLen
       numRXBytes out_of_bounds].
  assert (Hbrg : u16 (u16 brg) = u16 brg).
  { unfold u16. apply Z.mod_mod. lia. }
  rewrite Hbrg, negb_involutive.
  set (p := if (0 <=? pri) && (pri <=? 7) then pri else 1).
  assert (Hp : (0 <=? p) && (p <=? 7) = true).
  { unfold p. destruct (Z.leb_spec 0 pri); destruct (Z.leb_spec pri 7);
      cbn [andb];
      reflexivity || (apply andb_true_iff; split; apply Z.leb_le; lia). }
  rewrite Hp. reflexivity.
Qed.

(** The registers after one run of the interrupt routine: the flag is
    cleared, at most one command has been added to the bus, none on a
    quiet event, and every other register is as it was. *)
Lemma isr_regs (s : driver) :
  exists tail,
    (length tail <= 1)%nat
    /\ (quiet s = true -> tail = [])
    /\ regs (I2CInterruptRoutine s)
       = mk_sfr (I2CBRG (regs s)) (I2CEN (regs s)) (DISSLW (regs s))
           (ACKDT (regs s)) (BCL (regs s)) (ACKSTAT (regs s))
           (I2CRCV (regs s)) (MI2CIE (regs s)) (MI2CIP (regs s)) false
           (bus (regs s) ++ tail).
Proof.
  destruct s as [st er sy buf c l n oob [? ? ? ? bcl ack ? ? ? ? tr]].
  unfold I2CInterruptRoutine, quiet. crunch.
  assert (Hnone : forall P : Prop, P -> exists tail : list bus_op,
             (length tail <= 1)%nat /\ (P -> tail = [])
             /\ tr = tr ++ tail).
  { intros P _. exists []. rewrite app_nil_r. repeat split. cbn. lia. }
  destruct bcl; crunch.
  { exists []. rewrite app_nil_r. repeat split. cbn. lia. }
  destruct st; crunch;
    unfold stopDueToError, next_tx_byte, buf_load, buf_store; crunch;
    repeat match goal with
           | |- context [if ?b then _ else _] => destruct b; crunch
           end;
    first [ exists []; rewrite app_nil_r; repeat split; cbn; lia
          | eexists [_]; repeat split; [cbn; lia | discriminate] ].
Qed.

(** The routine leaves the pending read count and the policy flag
    alone. *)
Lemma isr_soft_frame (s : driver) :
  numRXBytes (I2CInterruptRoutine s) = numRXBytes s
  /\ i2c_stayInErrorState (I2CInterruptRoutine s) = i2c_stayInErrorState s.
Proof.
  destruct s as [st er sy buf c l n oob r].
  unfold I2CInterruptRoutine. crunch.
  destruct (BCL r); [now split|].
  destruct st; crunch;
    unfold stopDueToError, next_tx_byte, buf_load, buf_store; crunch;
    repeat match goal with
           | |- context [if ?b then _ else _] => destruct b; crunch
           end;
    now split.
Qed.

(** One run of the interrupt routine gives the bus at most one command,
    and none when a collision is flagged or the driver is idle, waiting
    for the stop condition, in the error state or disabled. *)
Theorem one_command_per_event (s : driver) :
  exists tail,
    bus (regs (I2CInterruptRoutine s)) = bus (regs s) ++ tail
    /\ (length tail <= if quiet s then 0 else 1)%nat.
Proof.
  destruct (isr_regs s) as (tail & Hlen & Hquiet & Hregs).
  exists tail. rewrite Hregs. split; [reflexivity|].
  destruct (quiet s); [|exact Hlen].
  rewrite Hquiet by reflexivity. reflexivity.
Qed.

(** The interrupt routine always clears the interrupt flag, and changes
    no other register but the bus: baud rate, module enable, slew rate,
    acknowledge bit, interrupt enable and priority stay. It never changes
    the pending read count or the policy flag. *)
Theorem routine_frame (s : driver) :
  let s' := I2CInterruptRoutine s in
  MI2CIF (regs s') = false
  /\ settings s' = settings s
  /\ I2CEN (regs s') = I2CEN (regs s)
  /\ ACKDT (regs s') = ACKDT (regs s)
  /\ MI2CIE (regs s') = MI2CIE (regs s)
  /\ numRXBytes s' = numRXBytes s
  /\ i2c_stayInErrorState s' = i2c_stayInErrorState s.
Proof.
  cbv zeta. destruct (isr_regs s) as (tail & _ & _ & Hregs).
  destruct (isr_soft_frame s) as [Hn Hp].
  unfold settings. rewrite Hregs, Hn, Hp. repeat split.
Qed.

Lemma completion_settings (ev : completion) (s : driver) :
  settings (on_completion ev s) = settings s.
Proof.
  unfold on_completion.
  destruct (isr_regs (raise_interrupt ev s)) as (tail & _ & _ & H).
  unfold settings. rewrite H. reflexivity.
Qed.

Lemma call_settings (q : request) (s : driver) :
  settings (snd (call q s)) = settings s.
Proof.
  destruct (admission_guard s) as [[e s']|] eqn:G.
  - rewrite (call_guarded q s _ G). cbn [snd].
    now destruct (guard_rejects _ _ _ G) as [[_ ->]|(_ & -> & _)].
  - assert (Hc : forall s1 s2, control s1 = control s2 ->
                               settings s1 = settings s2).
    { unfold control, settings. now intros s1 s2 [= _ _ _ _ _ _ ->]. }
    destruct q as [a r d|a r data len|a r|a r len|len]; cbn [call].
    + unfold i2c_putc. rewrite G. reflexivity.
    + unfold i2c_puts. rewrite G.
      destruct (_ <? _); cbn [snd]; [reflexivity|].
      unfold sendStartCondition, command, waitUntilIdle, settings.
      cbn [regs set_i2c_state set_regs set_numRXBytes emit I2CBRG DISSLW
           MI2CIP].
      change (settings (puts_copy (Z.to_nat
                (if len =? 0 then u16 (strlen data) else len)) 0 data
                (buf_store 1 r (buf_store 0 (address_byte a)
                   (set_TRXBufferCurrPos 0
                      (set_TRXBufferLen
                         (u16 (2 + (if len =? 0 then u16 (strlen data)
                                    else len)))
                         (set_i2c_state I2C_STATE_error s))))))
              = settings s).
      rewrite (Hc _ _ (puts_copy_control _ _ _ _)).
      rewrite !(Hc _ _ (buf_store_control _ _ _)). reflexivity.
    + unfold i2c_getc. rewrite G. reflexivity.
    + unfold i2c_gets. rewrite G.
      change (I2C_TRX_BUFFER_SIZE <? 2) with false. cbv iota.
      destruct (_ <? _); reflexivity.
    + unfold i2c_getData. rewrite G.
      destruct (_ =? 0); [reflexivity|].
      destruct (_ <? _); [reflexivity|].
      destruct (getData_copy _ _ _) as [w s'] eqn:E. cbn [snd].
      pose proof (getData_copy_control (Z.to_nat len) 0 s) as [H _].
      rewrite E in H. cbn [snd] in H. now apply Hc.
Qed.

(** Baud rate, slew rate and priority are those [i2c_init] programmed,
    whatever requests, completion events, resets, disables and enables
    follow: only another [i2c_init] changes them. *)
Theorem settings_kept (brg : Z) (slew : bool) (pri : Z) (ops : list op)
    (s : driver) :
  Forall (fun o => not_init o = true) ops ->
  settings (run ops (i2c_init brg slew pri s))
  = settings (i2c_init brg slew pri s).
Proof.
  intros Hops.
  assert (Hrange : forall t : driver,
             settings t = settings (i2c_init brg slew pri s) ->
             0 <= I2CBRG (regs t) < 65536 /\ 0 <= MI2CIP (regs t) <= 7).
  { intros t. unfold settings at 1. rewrite init_explicit.
    cbn [settings regs I2CBRG DISSLW MI2CIP].
    intros [= -> _ ->]. split.
    - unfold u16. apply Z.mod_pos_bound. lia.
    - destruct (Z.leb_spec 0 pri); destruct (Z.leb_spec pri 7); cbn; lia. }
  generalize dependent (i2c_init brg slew pri s). intros target Hrange.
  assert (Hgen : forall t, settings t = settings target ->
                           settings (run ops t) = settings target).
  { induction Hops as [|o ops Ho _ IH]; intros t Ht; [exact Ht|].
    cbn [run fold_left]. apply IH.
    destruct o; try discriminate; cbn [step].
    - now rewrite call_settings.
    - now rewrite completion_settings.
    - exact Ht.
    - exact Ht.
    - destruct (Hrange t Ht) as [Hb Hp].
      unfold i2c_enable, getI2CInterruptPriority. rewrite init_explicit.
      rewrite <- Ht. unfold settings. cbn [regs I2CBRG DISSLW MI2CIP].
      rewrite u16_small, negb_involutive by lia.
      replace ((0 <=? MI2CIP (regs t)) && (MI2CIP (regs t) <=? 7)) with true;
        [reflexivity|].
      symmetry. apply andb_true_iff. split; apply Z.leb_le; lia.
    - exact Ht. }
  now apply Hgen.
Qed.

Lemma settings_kept_witness :
  settings
    (run [Call (Putc 80 16 7); Completion acked; DoDisable; DoEnable;
          Call (Gets 80 16 40); DoReset]
       (i2c_init 157 true 9 power_up))
  = settings (i2c_init 157 true 9 power_up).
Proof.
  apply (settings_kept 157 true 9
           [Call (Putc 80 16 7); Completion acked; DoDisable; DoEnable;
            Call (Gets 80 16 40); DoReset] power_up).
  repeat constructor.
Defined.

(** ** Events that end or do not touch a transfer *)

(** When the slave does not acknowledge a byte, the transfer ends there,
    whatever was still to be sent or read: [I2C_ERR_slaveNACK] is
    latched, buffer, cursor, length and read count stay, and the only
    bus command is the stop condition of the auto-drain policy. No
    restart, no further byte, no receive. *)
Theorem nack_ends_transfer (s : driver) :
  BCL (regs s) = false ->
  ACKSTAT (regs s) = true ->
  i2c_state s = I2C_STATE_dataTX ->
  view (I2CInterruptRoutine s)
  = (if i2c_stayInErrorState s
     then I2C_STATE_error else I2C_STATE_sendingStop,
     I2C_ERR_slaveNACK, i2c_stayInErrorState s, TRXBuffer s,
     TRXBufferCurrPos s, TRXBufferLen s, numRXBytes s, out_of_bounds s,
     if i2c_stayInErrorState s
     then bus (regs s) else bus (regs s) ++ [Stop]).
Proof.
  intros Hbcl Hack Hst. unfold I2CInterruptRoutine.
  rewrite Hbcl, Hst, Hack. unfold stopDueToError.
  cbn [i2c_stayInErrorState set_i2c_error].
  destruct (i2c_stayInErrorState s) eqn:E; unfold view; cbn;
    now rewrite ?E.
Qed.

Lemma nack_ends_transfer_witness :
  i2c_error (I2CInterruptRoutine (raise_interrupt nack before_pivot))
  = I2C_ERR_slaveNACK.
Proof.
  assert (H := nack_ends_transfer (raise_interrupt nack before_pivot)).
  assert (H' : BCL (regs (raise_interrupt nack before_pivot)) = false
               /\ ACKSTAT (regs (raise_interrupt nack before_pivot)) = true
               /\ i2c_state (raise_interrupt nack before_pivot)
                  = I2C_STATE_dataTX)
    by (repeat split; vm_compute; reflexivity).
  destruct H' as (H1 & H2 & H3).
  specialize (H H1 H2 H3).
  apply (f_equal (fun v => snd (fst (fst (fst (fst (fst (fst (fst v)))))))))
    in H.
  cbv beta iota delta [fst snd view] in H. exact H.
Defined.

(** The error state absorbs completion events: whatever events follow,
    collisions included, the driver stays in the error state, gives the
    bus no command, and keeps buffer, cursor, length and read count.
    The driver leaves the error state through [i2c_reset] only. *)
Theorem error_state_absorbs (evs : list completion) (s : driver) :
  i2c_state s = I2C_STATE_error ->
  let s' := run (map Completion evs) s in
  i2c_state s' = I2C_STATE_error
  /\ bus (regs s') = bus (regs s)
  /\ TRXBuffer s' = TRXBuffer s
  /\ TRXBufferCurrPos s' = TRXBufferCurrPos s
  /\ TRXBufferLen s' = TRXBufferLen s
  /\ numRXBytes s' = numRXBytes s
  /\ out_of_bounds s' = out_of_bounds s.
Proof.
  revert s. induction evs as [|ev evs IH]; intros s Hst; [now repeat split|].
  cbn [map run fold_left step].
  assert (Hstep : i2c_state (on_completion ev s) = I2C_STATE_error
                  /\ bus (regs (on_completion ev s)) = bus (regs s)
                  /\ TRXBuffer (on_completion ev s) = TRXBuffer s
                  /\ TRXBufferCurrPos (on_completion ev s)
                     = TRXBufferCurrPos s
                  /\ TRXBufferLen (on_completion ev s) = TRXBufferLen s
                  /\ numRXBytes (on_completion ev s) = numRXBytes s
                  /\ out_of_bounds (on_completion ev s) = out_of_bounds s).
  { destruct s as [st er sy buf c l n oob r]. cbn in Hst. subst st.
    unfold on_completion, raise_interrupt, I2CInterruptRoutine. crunch.
    destruct (ev_BCL ev); now repeat split. }
  destruct Hstep as (H1 & H2 & H3 & H4 & H5 & H6 & H7).
  specialize (IH (on_completion ev s) H1). cbv zeta in IH.
  change (fold_left (fun s o => step o s) (map Completion evs)
            (on_completion ev s))
    with (run (map Completion evs) (on_completion ev s)).
  rewrite <- H2, <- H3, <- H4, <- H5, <- H6, <- H7. exact IH.
Qed.

Lemma error_state_absorbs_witness :
  i2c_state
    (run (map Completion [acked; collision; received 9])
       (snd (i2c_gets 80 16 40 (initial 157 true 4))))
  = I2C_STATE_error.
Proof.
  refine (proj1 (error_state_absorbs [acked; collision; received 9]
                   (snd (i2c_gets 80 16 40 (initial 157 true 4))) _)).
  vm_compute. reflexivity.
Defined.

(** ** What admission loads and what a write sends *)

Lemma set_TRXBuffer_same (s : driver) : set_TRXBuffer (TRXBuffer s) s = s.
Proof. now destruct s. Qed.

(** The copy loop of [i2c_puts] inside the buffer, written out: the
    payload bytes from index [k] on land behind the two header bytes. *)
Lemma puts_copy_spec (n : nat) (data : list Z) :
  forall (k : nat) (s : driver),
    length (TRXBuffer s) = 32%nat ->
    (k + n <= 30)%nat -> (k + n <= length data)%nat ->
    puts_copy n (Z.of_nat k) data s
    = set_TRXBuffer
        (take (2 + k) (TRXBuffer s) ++ take n (drop k data)
         ++ drop (2 + k + n) (TRXBuffer s)) s.
Proof.
  induction n as [|n IH]; intros k s Hbuf Hk Hdata.
  - cbn [puts_copy]. rewrite take_0, app_nil_l, Nat.add_0_r, take_drop.
    symmetry. apply set_TRXBuffer_same.
  - cbn [puts_copy]. unfold buf_store.
    rewrite u16_small by lia. rewrite in_buffer_true by lia.
    destruct (lookup_lt_is_Some_2 data k) as [d Hd]; [lia|].
    unfold data_at. rewrite Nat2Z.id, Hd. cbn [default]. unfold id.
    replace (Z.to_nat (Z.of_nat k + 2)) with (2 + k)%nat by lia.
    replace (Z.of_nat k + 1) with (Z.of_nat (S k)) by lia.
    rewrite IH; cbn [TRXBuffer set_TRXBuffer];
      [|now rewrite length_insert|lia|lia].
    assert (Hget : <[(2 + k)%nat := d]> (TRXBuffer s) !! (2 + k)%nat = Some d)
      by (apply list_lookup_insert_eq; lia).
    replace (2 + S k)%nat with (S (2 + k)) by lia.
    rewrite (take_S_r _ _ _ Hget), take_insert_ge by lia.
    rewrite drop_insert_lt by lia.
    rewrite (drop_S _ _ _ Hd). cbn [take].
    replace (S (2 + k) + n)%nat with (2 + k + S n)%nat by lia.
    rewrite <- app_assoc. reflexivity.
Qed.

Lemma header_stored (a r : Z) (buf : list Z) :
  length buf = 32%nat ->
  <[1%nat := r]> (<[0%nat := a]> buf) = [a; r] ++ drop 2 buf.
Proof.
  destruct buf as [|b0 [|b1 rest]]; try discriminate. reflexivity.
Qed.

(** What an admitted request leaves behind. *)
Lemma accepted_view (q : request) (s : driver) sy buf c l n tr :
  length buf = 32%nat ->
  proper q ->
  view s = (I2C_STATE_idle, I2C_ERR_noError, sy, buf, c, l, n, false, tr) ->
  fst (call q s) = I2C_ERR_noError
  /\ view (snd (call q s))
     = (I2C_STATE_sendingStart, I2C_ERR_noError, sy,
        outgoing q ++ drop (length (outgoing q)) buf, 0,
        Z.of_nat (length (outgoing q)), pending q, false, tr ++ [Start]).
Proof.
  intros Hbuf Hq Hv.
  destruct s as [? ? ? ? ? ? ? ? [? ? ? ? ? ? ? ? ? ? ?]].
  unfold view in Hv. cbn in Hv. injection Hv as -> -> -> -> -> -> -> -> ->.
  match goal with
  | |- context [call q ?t] =>
      assert (G : admission_guard t = None) by reflexivity
  end.
  destruct q as [a r d|a r data len|a r|a r len|len]; cbn [call proper] in *.
  - unfold i2c_putc. rewrite G. unfold buf_store.
    change (in_buffer 0) with true. change (in_buffer 1) with true.
    change (in_buffer 2) with true. crunch.
    split; [reflexivity|]. unfold view. crunch.
    change (Z.to_nat 0) with 0%nat. change (Z.to_nat 1) with 1%nat.
    change (Z.to_nat 2) with 2%nat.
    rewrite header_stored by assumption.
    destruct buf as [|b0 [|b1 [|b2 rest]]]; try discriminate. reflexivity.
  - destruct Hq as [Hlen Hdata].
    unfold i2c_puts. rewrite G.
    rewrite u16_small by lia.
    replace (I2C_TRX_BUFFER_SIZE <? 2 + len) with false
      by (symmetry; apply Z.ltb_ge; unfold I2C_TRX_BUFFER_SIZE; lia).
    replace (len =? 0) with false by (symmetry; apply Z.eqb_neq; lia).
    unfold buf_store.
    change (in_buffer 0) with true. change (in_buffer 1) with true.
    cbv iota.
    change (Z.to_nat 0) with 0%nat. change (Z.to_nat 1) with 1%nat.
    match goal with
    | |- context [puts_copy ?m 0 ?dt ?t] =>
        pose proof (puts_copy_spec m dt 0%nat t) as Hp
    end.
    change (Z.of_nat 0) with 0 in Hp. rewrite Hp; clear Hp; crunch;
      [|now rewrite !length_insert|lia|lia].
    split; [reflexivity|]. unfold view. crunch.
    rewrite header_stored by assumption.
    rewrite drop_0, length_take, Nat.min_l by lia.
    change (take 2 ([address_byte a; r] ++ drop 2 buf))
      with [address_byte a; r].
    change (drop (S (S (Z.to_nat len))) ([address_byte a; r] ++ drop 2 buf))
      with (drop (Z.to_nat len) (drop 2 buf)).
    rewrite drop_drop, u16_small by lia.
    replace (Z.of_nat (S (S (Z.to_nat len)))) with (2 + len) by lia.
    reflexivity.
  - unfold i2c_getc. rewrite G. unfold buf_store.
    change (in_buffer 0) with true. change (in_buffer 1) with true. crunch.
    split; [reflexivity|]. unfold view. crunch.
    change (Z.to_nat 0) with 0%nat. change (Z.to_nat 1) with 1%nat.
    now rewrite header_stored by assumption.
  - unfold i2c_gets. rewrite G. unfold buf_store.
    change (I2C_TRX_BUFFER_SIZE <? 2) with false. cbv iota.
    rewrite u16_small by lia.
    replace (I2C_TRX_BUFFER_SIZE <? 1 + len) with false
      by (symmetry; apply Z.ltb_ge; unfold I2C_TRX_BUFFER_SIZE; lia).
    change (in_buffer 0) with true. change (in_buffer 1) with true. crunch.
    split; [reflexivity|]. unfold view. crunch.
    change (Z.to_nat 0) with 0%nat. change (Z.to_nat 1) with 1%nat.
    now rewrite header_stored by assumption.
  - contradiction.
Qed.

(** A request that fits the buffer, made to an idle driver with no error
    latched, is admitted: the buffer starts with the address byte in
    write direction, the register and the payload, its other bytes are
    as before; the cursor is 0, the length counts those bytes, the read
    count is what the request asks for, the start condition is on the
    bus and the driver is busy. *)
Theorem admission_loads_buffer (q : request) (s : driver) :
  well_formed s ->
  i2c_state s = I2C_STATE_idle ->
  i2c_error s = I2C_ERR_noError ->
  proper q ->
  fst (call q s) = I2C_ERR_noError
  /\ view (snd (call q s))
     = (I2C_STATE_sendingStart, I2C_ERR_noError, i2c_stayInErrorState s,
        outgoing q ++ drop (length (outgoing q)) (TRXBuffer s), 0,
        Z.of_nat (length (outgoing q)), pending q, false,
        bus (regs s) ++ [Start])
  /\ i2c_busy (snd (call q s)) = true.
Proof.
  intros [Hbuf Hoob] Hidle Herr Hq.
  pose proof (view_of s) as H0. rewrite Hidle, Herr, Hoob in H0.
  destruct (accepted_view q s _ _ _ _ _ _ Hbuf Hq H0) as [Hret Hv].
  repeat split; try assumption.
  unfold i2c_busy. unfold view in Hv. injection Hv as -> _ _ _ _ _ _ _ _.
  reflexivity.
Qed.

Lemma admission_loads_buffer_witness :
  fst (call (Puts 80 16 [170; 187; 204] 3) (initial 157 true 4))
  = I2C_ERR_noError.
Proof.
  refine (proj1 (admission_loads_buffer (Puts 80 16 [170; 187; 204] 3)
                   (initial 157 true 4) _ _ _ _)).
  - split; reflexivity.
  - reflexivity.
  - reflexivity.
  - cbn. split; lia.
Defined.

(** The transmit loop: with [m] bytes left between cursor and length,
    [m] acknowledged bytes send them in buffer order. *)
Lemma transmit_loop (m : nat) :
  forall (s : driver) (k : nat) e sy buf n tr,
    length buf = 32%nat -> (k + m <= 32)%nat ->
    view s = (I2C_STATE_dataTX, e, sy, buf, Z.of_nat k,
              Z.of_nat (k + m), n, false, tr) ->
    view (run (acks m) s)
    = (I2C_STATE_dataTX, e, sy, buf, Z.of_nat (k + m), Z.of_nat (k + m),
       n, false, tr ++ map Transmit (take m (drop k buf))).
Proof.
  induction m as [|m IH]; intros s k e sy buf n tr Hbuf Hk Hv.
  - cbn [acks replicate run fold_left]. rewrite take_0, app_nil_r.
    now rewrite Nat.add_0_r in *.
  - destruct (lookup_lt_is_Some_2 buf k) as [b Hb]; [lia|].
    apply (ack_sends_next_byte _ _ _ _ _ _ Hbuf) in Hv; [|lia|lia].
    rewrite Hb in Hv. cbn [default] in Hv. unfold id in Hv.
    replace (k + S m)%nat with (S k + m)%nat in * by lia.
    apply IH in Hv; [|assumption|lia].
    change (run (acks (S m)) s) with (run (acks m) (on_completion acked s)).
    rewrite Hv, (drop_S _ _ _ Hb). cbn [take map].
    rewrite <- app_assoc. reflexivity.
Qed.

(** The driver after a write has been carried through. *)
Lemma write_transfer_view (q : request) (s : driver) :
  well_formed s ->
  i2c_state s = I2C_STATE_idle ->
  i2c_error s = I2C_ERR_noError ->
  proper q ->
  pending q = 0 ->
  fst (call q s) = I2C_ERR_noError
  /\ view (run (acks (length (outgoing q) + 2)) (snd (call q s)))
     = (I2C_STATE_idle, I2C_ERR_noError, i2c_stayInErrorState s,
        outgoing q ++ drop (length (outgoing q)) (TRXBuffer s),
        Z.of_nat (length (outgoing q)), Z.of_nat (length (outgoing q)),
        0, false,
        bus (regs s) ++ [Start] ++ map Transmit (outgoing q) ++ [Stop]).
Proof.
  intros [Hbuf Hoob] Hidle Herr Hq Hpend.
  set (done := run (acks (length (outgoing q) + 2)) (snd (call q s))).
  pose proof (view_of s) as H0. rewrite Hidle, Herr, Hoob in H0.
  destruct (accepted_view q s _ _ _ _ _ _ Hbuf Hq H0) as [Hret Hv].
  rewrite Hpend in Hv.
  set (out := outgoing q) in *.
  assert (Hout : (2 <= length out <= 32)%nat).
  { unfold out. destruct q as [a r d|a r data len|a r|a r len|len];
      cbn [outgoing length proper] in *; try lia.
    rewrite length_take. lia. }
  set (buf1 := out ++ drop (length out) (TRXBuffer s)) in *.
  assert (Hbuf1 : length buf1 = 32%nat).
  { unfold buf1. rewrite length_app, length_drop. lia. }
  assert (Hrun : done
                 = on_completion acked (on_completion acked
                     (run (acks (length out - 1))
                        (on_completion acked (snd (call q s)))))).
  { unfold done.
    replace (length out + 2)%nat with (1 + ((length out - 1) + 2))%nat by lia.
    unfold acks. rewrite !replicate_add, !run_app. reflexivity. }
  clearbody done.
  assert (Hhead : exists b0, buf1 !! 0%nat = Some b0
                             /\ out = b0 :: take (length out - 1)
                                            (drop 1 buf1)).
  { unfold buf1. destruct out as [|b0 rest]; [cbn in Hout; lia|].
    exists b0. split; [reflexivity|].
    cbn [length]. replace (S (length rest) - 1)%nat with (length rest) by lia.
    change (drop 1 ((b0 :: rest) ++ drop (S (length rest)) (TRXBuffer s)))
      with (rest ++ drop (S (length rest)) (TRXBuffer s)).
    now rewrite take_app_length. }
  destruct Hhead as (b0 & Hb0 & Hsplit).
  apply (start_sends_first_byte _ _ _ _ _ _ Hbuf1 _ I2C_STATE_sendingStart 0)
    in Hv; [|now left|lia|lia].
  rewrite Hb0 in Hv. cbn [default] in Hv. unfold id in Hv.
  replace (Z.of_nat (length out)) with (Z.of_nat (1 + (length out - 1)))
    in Hv by lia.
  apply (transmit_loop (length out - 1) _ 1) in Hv; [|assumption|lia].
  apply write_ends_with_stop in Hv.
  apply stop_completes in Hv.
  rewrite <- Hrun in Hv.
  replace (1 + (length out - 1))%nat with (length out) in Hv by lia.
  split; [exact Hret|]. rewrite Hv. f_equal.
  set (tl := take (length out - 1) (drop 1 buf1)) in *.
  clearbody tl. rewrite Hsplit. cbn [map app].
  rewrite <- !app_assoc. reflexivity.
Qed.

(** A write carried through. A request that fits the buffer and asks for
    no bytes back ([i2c_putc], [i2c_puts] with 1 to 30 bytes, [i2c_gets]
    with a count of 0), admitted by an idle driver, is followed by as
    many completion events as it has bytes plus two, all acknowledged.
    The bus then has seen the start condition, the address byte, the
    register and the payload in order, and the stop condition, nothing
    else; the driver is idle again, not busy, with no error. *)
Theorem write_transfer_completes (q : request) (s : driver) :
  well_formed s ->
  i2c_state s = I2C_STATE_idle ->
  i2c_error s = I2C_ERR_noError ->
  proper q ->
  pending q = 0 ->
  let done := run (acks (length (outgoing q) + 2)) (snd (call q s)) in
  fst (call q s) = I2C_ERR_noError
  /\ i2c_state done = I2C_STATE_idle
  /\ i2c_error done = I2C_ERR_noError
  /\ i2c_busy done = false
  /\ out_of_bounds done = false
  /\ bus (regs done)
     = bus (regs s) ++ [Start] ++ map Transmit (outgoing q) ++ [Stop].
Proof.
  intros Hwf Hidle Herr Hq Hpend done.
  destruct (write_transfer_view q s Hwf Hidle Herr Hq Hpend) as [Hret Hv].
  fold done in Hv. clearbody done. unfold view in Hv.
  injection Hv as D1 D2 D3 D4 D5 D6 D7 D8 D9.
  repeat split; try assumption.
  unfold i2c_busy. now rewrite D1.
Qed.

Lemma write_transfer_completes_witness :
  let q := Puts 80 16 [170; 187; 204] 3 in
  let s := initial 157 true 4 in
  bus (regs (run (acks (length (outgoing q) + 2)) (snd (call q s))))
  = bus (regs s) ++ [Start] ++ map Transmit (outgoing q) ++ [Stop].
Proof.
  intros q s.
  assert (Hwf : well_formed s) by (split; reflexivity).
  assert (Hq : proper q) by (cbn; split; lia).
  exact (proj2 (proj2 (proj2 (proj2 (proj2
           (write_transfer_completes q s Hwf eq_refl eq_refl Hq
              eq_refl)))))).
Defined.

(** The cursor does not tell a write from a read. After a write has been
    carried through, [i2c_getData] with a destination as large as the
    request succeeds and returns the bytes that were sent: address byte,
    register, payload. *)
Theorem sent_bytes_are_retrievable (q : request) (s : driver) :
  well_formed s ->
  i2c_state s = I2C_STATE_idle ->
  i2c_error s = I2C_ERR_noError ->
  proper q ->
  pending q = 0 ->
  let done := run (acks (length (outgoing q) + 2)) (snd (call q s)) in
  i2c_getData (Z.of_nat (length (outgoing q))) done
  = (I2C_ERR_noError, outgoing q, done).
Proof.
  intros Hwf Hidle Herr Hq Hpend done.
  destruct (write_transfer_view q s Hwf Hidle Herr Hq Hpend) as [_ Hv].
  fold done in Hv. clearbody done. unfold view in Hv.
  injection Hv as D1 D2 D3 D4 D5 D6 D7 D8 D9.
  destruct Hwf as [Hbuf _].
  assert (Hout : (2 <= length (outgoing q) <= 32)%nat).
  { destruct q as [a r d|a r data len|a r|a r len|len];
      cbn [outgoing length proper] in *; try lia.
    rewrite length_take. lia. }
  rewrite getData_copies_len.
  - rewrite D4, Nat2Z.id, take_app_length. reflexivity.
  - rewrite D4, length_app, length_drop. lia.
  - exact D1.
  - exact D2.
  - rewrite D5. lia.
  - lia.
Qed.

Lemma sent_bytes_are_retrievable_witness :
  let q := Putc 80 16 7 in
  let s := initial 157 true 4 in
  let done := run (acks (length (outgoing q) + 2)) (snd (call q s)) in
  i2c_getData (Z.of_nat (length (outgoing q))) done
  = (I2C_ERR_noError, outgoing q, done).
Proof.
  intros q s.
  assert (Hwf : well_formed s) by (split; reflexivity).
  exact (sent_bytes_are_retrievable q s Hwf eq_refl eq_refl I eq_refl).
Defined.

(** A read of zero bytes is a write of the register address alone:
    [i2c_gets] with a count of 0 does what [i2c_puts] does with an empty
    string, in every driver state. *)
Theorem empty_read_is_empty_write (address reg : Z) (s : driver) :
  i2c_gets address reg 0 s = i2c_puts address reg [] 0 s.
Proof.
  unfold i2c_gets, i2c_puts. destruct (admission_guard s); reflexivity.
Qed.

(** ** Retrieval *)

(** [i2c_getData] on an idle driver with no error latched: with the
    cursor at 0 it returns [I2C_ERR_nothingReceived], with a destination
    shorter than the cursor [I2C_ERR_RXBufferOverflow]. Both failures
    write nothing to the destination and leave the driver idle, yet with
    the code latched, so that the retrieval cannot simply be repeated
    with a larger destination. *)
Theorem retrieval_failures (len : Z) (s : driver) :
  i2c_state s = I2C_STATE_idle ->
  i2c_error s = I2C_ERR_noError ->
  (TRXBufferCurrPos s = 0 ->
   i2c_getData len s
   = (I2C_ERR_nothingReceived, [],
      set_i2c_error I2C_ERR_nothingReceived s))
  /\ (TRXBufferCurrPos s <> 0 -> len < TRXBufferCurrPos s ->
      i2c_getData len s
      = (I2C_ERR_RXBufferOverflow, [],
         set_i2c_error I2C_ERR_RXBufferOverflow s)
      /\ forall len',
           i2c_getData len' (snd (i2c_getData len s))
           = (I2C_ERR_inErrorState, [], snd (i2c_getData len s))).
Proof.
  intros Hidle Herr. unfold i2c_getData at 1 2 4 5.
  rewrite (guard_idle s Herr Hidle). split.
  - intros ->. reflexivity.
  - intros Hne Hlt.
    rewrite (eqb_false _ _ Hne).
    replace (len <? TRXBufferCurrPos s) with true
      by (symmetry; now apply Z.ltb_lt).
    split; [reflexivity|]. intros len'. cbn [snd].
    unfold i2c_getData. now rewrite guard_faulted.
Qed.

Lemma retrieval_failures_witness :
  i2c_getData 8 (initial 157 true 4)
  = (I2C_ERR_nothingReceived, [],
     set_i2c_error I2C_ERR_nothingReceived (initial 157 true 4)).
Proof.
  exact (proj1 (retrieval_failures 8 (initial 157 true 4) eq_refl eq_refl)
           eq_refl).
Defined.

(** ** The auto-drain policy after a missing acknowledge *)

(** With [i2c_stayInErrorState] false, a missing acknowledge puts the
    stop condition on the bus, and its completion brings the driver to
    idle and not busy. [I2C_ERR_slaveNACK] stays latched, so every
    request is still refused with [I2C_ERR_inErrorState]; only after
    [i2c_reset] a request is admitted again. *)
Theorem auto_drain_still_refuses (s : driver) :
  i2c_state s = I2C_STATE_dataTX ->
  i2c_stayInErrorState s = false ->
  let stopping := on_completion nack s in
  let drained := on_completion acked stopping in
  i2c_state stopping = I2C_STATE_sendingStop
  /\ bus (regs stopping) = bus (regs s) ++ [Stop]
  /\ i2c_state drained = I2C_STATE_idle
  /\ i2c_busy drained = false
  /\ i2c_error drained = I2C_ERR_slaveNACK
  /\ bus (regs drained) = bus (regs s) ++ [Stop]
  /\ (forall q, call q drained = (I2C_ERR_inErrorState, drained))
  /\ (forall address reg data,
        fst (i2c_putc address reg data (i2c_reset drained))
        = I2C_ERR_noError).
Proof.
  intros Hst Hpol.
  destruct s as [st er sy buf c l n oob [brg en slw adt ? ? ? ie ip ? tr]].
  cbn in Hst, Hpol. subst st sy.
  match goal with
  | |- context [on_completion nack ?t] =>
      assert (H1 : on_completion nack t
                   = mk_driver I2C_STATE_sendingStop I2C_ERR_slaveNACK false
                       buf c l n oob
                       (mk_sfr brg en slw adt false true 0 ie ip false
                          (tr ++ [Stop])))
        by reflexivity
  end.
  assert (H2 : on_completion acked
                 (mk_driver I2C_STATE_sendingStop I2C_ERR_slaveNACK false
                    buf c l n oob
                    (mk_sfr brg en slw adt false true 0 ie ip false
                       (tr ++ [Stop])))
               = mk_driver I2C_STATE_idle I2C_ERR_slaveNACK false
                   buf c l n oob
                   (mk_sfr brg en slw adt false false 0 ie ip false
                      (tr ++ [Stop])))
    by reflexivity.
  cbv zeta. rewrite H1, H2.
  repeat match goal with |- _ /\ _ => split end; try reflexivity.
  intros q. apply call_guarded. reflexivity.
Qed.

Lemma auto_drain_still_refuses_witness :
  i2c_error
    (on_completion acked
       (on_completion nack
          (run [Call (Putc 80 16 7); Completion acked] auto_drain)))
  = I2C_ERR_slaveNACK.
Proof.
  exact (proj1 (proj2 (proj2 (proj2 (proj2
           (auto_drain_still_refuses
              (run [Call (Putc 80 16 7); Completion acked] auto_drain)
              eq_refl eq_refl)))))).
Defined.

(** ** The string form beyond the buffer *)

Lemma buf_store_flag (i v : Z) (s : driver) :
  out_of_bounds s = true -> out_of_bounds (buf_store i v s) = true.
Proof. intros H. unfold buf_store. now destruct (in_buffer i). Qed.

Lemma puts_copy_flag (n : nat) (data : list Z) :
  forall (i : Z) (s : driver),
    out_of_bounds s = true -> out_of_bounds (puts_copy n i data s) = true.
Proof.
  induction n as [|n IH]; intros i s H; [exact H|].
  cbn [puts_copy]. apply IH. now apply buf_store_flag.
Qed.

(** A copy that runs past payload index 29 stores outside the buffer. *)
Lemma puts_copy_overruns (n : nat) (data : list Z) :
  forall (i : Z) (s : driver),
    0 <= i <= 30 -> 30 < i + Z.of_nat n -> i + Z.of_nat n + 2 < 65536 ->
    out_of_bounds (puts_copy n i data s) = true.
Proof.
  induction n as [|n IH]; intros i s Hi Hn Hw; [lia|].
  cbn [puts_copy]. destruct (Z.eq_dec i 30) as [->|Hne].
  - apply puts_copy_flag. unfold buf_store.
    change (in_buffer (u16 (30 + 2))) with false. reflexivity.
  - apply IH; lia.
Qed.

(** [i2c_puts] with [len] 0 checks the capacity before it looks at the
    string. For a string of 31 characters or more the call is admitted
    all the same: it returns success, sets the length beyond the
    capacity and stores payload bytes past the end of [TRXBuffer]. *)
Theorem long_string_overruns_buffer (address reg : Z) (data : list Z)
    (s : driver) :
  i2c_state s = I2C_STATE_idle ->
  i2c_error s = I2C_ERR_noError ->
  31 <= strlen data <= 65533 ->
  fst (i2c_puts address reg data 0 s) = I2C_ERR_noError
  /\ TRXBufferLen (snd (i2c_puts address reg data 0 s)) = 2 + strlen data
  /\ I2C_TRX_BUFFER_SIZE < TRXBufferLen (snd (i2c_puts address reg data 0 s))
  /\ out_of_bounds (snd (i2c_puts address reg data 0 s)) = true.
Proof.
  intros Hidle Herr Hstr. unfold i2c_puts.
  rewrite (guard_idle s Herr Hidle).
  change (I2C_TRX_BUFFER_SIZE <? u16 (2 + 0)) with false.
  change (0 =? 0) with true. cbv iota.
  rewrite (u16_small (strlen data)) by lia.
  rewrite (u16_small (2 + strlen data)) by lia.
  cbn [fst snd]. split; [reflexivity|].
  unfold sendStartCondition, command, waitUntilIdle.
  cbn [TRXBufferLen out_of_bounds set_i2c_state set_regs set_numRXBytes].
  assert (Hlen : TRXBufferLen
                   (puts_copy (Z.to_nat (strlen data)) 0 data
                      (buf_store 1 reg
                         (buf_store 0 (address_byte address)
                            (set_TRXBufferCurrPos 0
                               (set_TRXBufferLen (2 + strlen data)
                                  (set_i2c_state I2C_STATE_error s))))))
                 = 2 + strlen data).
  { pose proof (puts_copy_control (Z.to_nat (strlen data)) data 0
                  (buf_store 1 reg
                     (buf_store 0 (address_byte address)
                        (set_TRXBufferCurrPos 0
                           (set_TRXBufferLen (2 + strlen data)
                              (set_i2c_state I2C_STATE_error s))))))
      as Hc.
    rewrite !buf_store_control in Hc. unfold control in Hc.
    now injection Hc as _ _ _ _ -> _ _. }
  rewrite Hlen. split; [reflexivity|].
  split; [unfold I2C_TRX_BUFFER_SIZE; lia|].
  apply puts_copy_overruns; lia.
Qed.

Lemma long_string_overruns_buffer_witness :
  out_of_bounds (snd (i2c_puts 80 16 long_string 0 (initial 157 true 4)))
  = true.
Proof.
  refine (proj2 (proj2 (proj2
            (long_string_overruns_buffer 80 16 long_string
               (initial 157 true 4) _ _ _)))).
  - reflexivity.
  - reflexivity.
  - vm_compute. split; discriminate.
Defined.
